(** * etl_pyspark_countries: the validation-and-flattening core of pipeline.py

    A shallow embedding of [validar_schema_bruto] and
    [transformar_dados_paises] (src/pipeline.py), with the properties of the
    specification stated over it.

    Modelling choices.
    - A [DataFrame] is its schema ([df.schema.fields]) and its rows.
    - The engine checks the type of each column expression against the
      schema when a DataFrame is built, and raises an [AnalysisException]
      where one has none.  [analyze] is that check for the two [withColumn]
      and the ten expressions of the [select]: [explode_outer] under one
      column name needs an array (a struct has no expansion, and a map
      expands into two columns); a field is read from a struct that has it;
      [coalesce] with a string literal needs a string or a number; a cast to
      a number needs an atomic column.  The reader is given no schema (line
      111), so it reads a JSON object as a struct and never as a map: the
      transform runs only where [currencies] and [languages] are arrays of
      entries with the fields key and value.
    - The rows carry the eight columns the transform reads, in the shape
      that an accepted plan reads them; the two numeric columns carry any
      atomic value, since they are read through a cast.
    - Column operators ([explode_outer], [element_at], [coalesce], [cast],
      [distinct], [filter], [count]) are given by their row-level meaning in
      the engine's default (non-ANSI) mode, in which a cast that cannot be
      done on a value is null.  [distinct] groups the rows with the doubles
      normalized, -0.0 being 0.0.
    - The engine is the [SparkSession] argument of the source: it reads the
      input and converts text to numbers.
    - Logging and exceptions are explicit: a computation returns the log
      records it emitted, in order, and either an exception or a value.
    - For the driver ([extrair_dados_api], [inicializar_spark],
      [carregar_dados_parquet], [main]) what is outside the program is a
      [World]: the HTTP service, the file system, the creation of the session
      and the Parquet writer, each of which answers or fails.  A run is the
      list of its events (log records and calls to the outside, in order) and
      the way it ends: it returns, raises, or exits the process. *)

From Stdlib Require Import ZArith Floats Ascii.
From stdpp Require Import base option list strings gmap pretty.

Set Warnings "-register-all,-clear-no-such-hyp".

Local Open Scope string_scope.
Local Open Scope list_scope.
Local Open Scope Z_scope.

(** ** pyspark.sql.types *)

(** The data types the JSON reader infers (null, boolean, long, double,
    string, struct, array) and the further ones the source names. *)
Inductive DataType : Type :=
  | StringType
  | IntegerType
  | LongType
  | DoubleType
  | BooleanType
  | NullType
  | StructType (fields : list (string * DataType * bool))
  | MapType (keyType valueType : DataType)
  | ArrayType (elementType : DataType).

(** [StructField(name, dataType, nullable)]. *)
Abbreviation StructField := (string * DataType * bool)%type.
Definition sf_name (f : StructField) : string := f.1.1.
Definition sf_dataType (f : StructField) : DataType := f.1.2.

(** The Python class of a data type object, [type(t)]. *)
Inductive PyClass : Type :=
  | CStringType | CIntegerType | CLongType | CDoubleType | CBooleanType
  | CNullType | CStructType | CMapType | CArrayType.

#[global] Instance PyClass_eq_dec : EqDecision PyClass.
Proof. solve_decision. Defined.

Definition type_of (t : DataType) : PyClass :=
  match t with
  | StringType => CStringType
  | IntegerType => CIntegerType
  | LongType => CLongType
  | DoubleType => CDoubleType
  | BooleanType => CBooleanType
  | NullType => CNullType
  | StructType _ => CStructType
  | MapType _ _ => CMapType
  | ArrayType _ => CArrayType
  end.

(** [isinstance(obj, cls)].  The classes above are leaves of the class
    hierarchy of pyspark.sql.types: none is a subclass of another. *)
Definition isinstance (obj : DataType) (cls : PyClass) : bool :=
  bool_decide (type_of obj = cls).

Definition class_name (c : PyClass) : string :=
  match c with
  | CStringType => "StringType"
  | CIntegerType => "IntegerType"
  | CLongType => "LongType"
  | CDoubleType => "DoubleType"
  | CBooleanType => "BooleanType"
  | CNullType => "NullType"
  | CStructType => "StructType"
  | CMapType => "MapType"
  | CArrayType => "ArrayType"
  end.

(** [str(cls)] as an f-string renders it. *)
Definition class_repr (c : PyClass) : string :=
  "<class 'pyspark.sql.types." +:+ class_name c +:+ "'>".

(** ** Log records and exceptions *)

Inductive Level : Type := INFO | WARNING | ERROR.

Inductive Message : Type :=
  | MsgInfo (text : string)
  | MsgCampoAusente (field : string)
  | MsgTipoDiferente (field : string) (actual expected : PyClass)
  | MsgPopulacaoInvalida (n : nat)
  | MsgErroTransformacao (cause : string).

Definition format_message (m : Message) : string :=
  match m with
  | MsgInfo text => text
  | MsgCampoAusente field =>
      "Campo obrigatório '" +:+ field +:+ "' não encontrado no schema de origem."
  | MsgTipoDiferente field actual expected =>
      "Tipo do campo '" +:+ field +:+ "' (" +:+ class_repr actual
      +:+ ") é diferente do esperado (" +:+ class_repr expected
      +:+ "). Continuando com a transformação."
  | MsgPopulacaoInvalida n =>
      "Foram encontrados " +:+ pretty n +:+ " registros com população inválida."
  | MsgErroTransformacao cause =>
      "Erro durante a transformação dos dados com PySpark: " +:+ cause
  end.

Inductive Exception : Type :=
  | TypeError (m : Message)
  | EngineError (text : string).

Definition exception_str (e : Exception) : string :=
  match e with
  | TypeError m => format_message m
  | EngineError text => text
  end.

Definition LogRecord : Type := Level * Message.

(** A computation that logs and may raise. *)
Definition Run (A : Type) : Type := list LogRecord * (Exception + A).

#[global] Instance Run_ret : MRet Run := λ A a, ([], inr a).
#[global] Instance Run_bind : MBind Run := λ A B k m,
  match m.2 with
  | inl e => (m.1, inl e)
  | inr a => ((m.1 ++ (k a).1)%list, (k a).2)
  end.

Definition raise {A} (e : Exception) : Run A := ([], inl e).
Definition log (lvl : Level) (m : Message) : Run unit := ([(lvl, m)], inr ()).

(** [try: body except Exception as e: handler(e)]. *)
Definition try_except {A} (body : Run A) (handler : Exception → Run A) : Run A :=
  match body.2 with
  | inl e => ((body.1 ++ (handler e).1)%list, (handler e).2)
  | inr a => body
  end.

Definition emitted {A} (m : Run A) : list LogRecord := m.1.
Definition outcome {A} (m : Run A) : Exception + A := m.2.

(** ** validar_schema_bruto *)

Definition required_fields : list (string * DataType) :=
  [ ("name", StructType [("common", StringType, true); ("official", StringType, true)]);
    ("currencies", MapType StringType
        (StructType [("name", StringType, true); ("symbol", StringType, true)]));
    ("languages", MapType StringType StringType);
    ("capital", ArrayType StringType);
    ("population", IntegerType);
    ("area", DoubleType);
    ("region", StringType);
    ("subregion", StringType) ].

(** [{field.name: field.dataType for field in df.schema.fields}]: a later
    field of the same name replaces an earlier one. *)
Definition schema_dict (fields : list StructField) : gmap string DataType :=
  foldl (λ d f, <[sf_name f := sf_dataType f]> d) ∅ fields.

(** The body of [for field, expected_type in required_fields.items()]. *)
Fixpoint validar_campos (items : list (string * DataType))
    (df_schema : gmap string DataType) : Run unit :=
  match items with
  | [] => mret ()
  | (field, expected_type) :: rest =>
      match df_schema !! field with
      | None => raise (TypeError (MsgCampoAusente field))
      | Some actual =>
          (if isinstance actual (type_of expected_type) then mret ()
           else log WARNING
                  (MsgTipoDiferente field (type_of actual) (type_of expected_type))) ;;
          validar_campos rest df_schema
      end
  end.

Definition validar_schema_bruto (schema_fields : list StructField) : Run unit :=
  log INFO (MsgInfo "Iniciando validação de schema dos dados brutos.") ;;
  validar_campos required_fields (schema_dict schema_fields) ;;
  log INFO (MsgInfo "Validação de schema concluída com sucesso.").

(** What the loop logs for a field that is present. *)
Definition warning_of (field : string) (actual expected : DataType)
    : list LogRecord :=
  if isinstance actual (type_of expected) then []
  else [(WARNING, MsgTipoDiferente field (type_of actual) (type_of expected))].

(** ** Rows of the raw DataFrame *)

(** A cell of an atomic column: null, boolean, long (a 64-bit integer),
    double or string. *)
Inductive Atom : Type :=
  | ANull
  | ABool (b : bool)
  | ALong (n : Z)
  | ADouble (x : float)
  | AStr (s : string).

(** [name]: struct<common, official>. *)
Module Name.
Record t : Type := mk { common : option string; official : option string }.
End Name.

(** The value of an entry of [currencies]: struct<name, symbol>. *)
Module Currency.
Record t : Type := mk { name : option string; symbol : option string }.
End Currency.

(** An element of [currencies] or of [languages]: struct<key, value>. *)
Module Entry.
Record t (V : Type) : Type := mk { key : option string; value : option V }.
End Entry.

Arguments Entry.mk {V} _ _.
Arguments Entry.key {V} _.
Arguments Entry.value {V} _.

(** One row of a DataFrame whose schema the analysis of the plan accepts
    (see [analyze]); of any other DataFrame the transform reads no row.
    [None] is null: the field is absent from the record, or is JSON null.
    [currencies] and [languages] are arrays of entries, in the order of the
    array; an element may be null.  A cell that the select reads as text
    holds the text: where the column has a numeric type, the text that the
    engine casts the number to. *)
Module Raw.
Record Row : Type := mk {
  name : option Name.t;
  currencies : option (list (option (Entry.t Currency.t)));
  languages : option (list (option (Entry.t string)));
  capital : option (list (option string));
  population : Atom;
  area : Atom;
  region : option string;
  subregion : option string }.
End Raw.

(** A DataFrame: its schema ([df.schema.fields]) and its rows.  The rows
    matter only when the plan is accepted; where it is rejected the examples
    leave them empty, or let them be any. *)
Record DataFrame : Type := {
  schema_fields : list StructField;
  rows : list Raw.Row }.

(** The row that [select] builds: the ten aliased columns. *)
Record FlatRow : Type := {
  nome_comum : string;
  nome_oficial : string;
  regiao : string;
  sub_regiao : string;
  capital : string;
  populacao : Z;
  area : float;
  moeda_codigo : string;
  moeda_nome : string;
  idioma : string }.

#[global] Instance float_eq_dec : EqDecision float.
Proof.
  refine (λ x y,
    match Leibniz.eqb x y as b return Leibniz.eqb x y = b → Decision (x = y) with
    | true => λ H, left _
    | false => λ H, right _
    end eq_refl).
  - by apply Leibniz.eqb_spec.
  - intros E. apply Leibniz.eqb_spec in E. congruence.
Defined.

#[global] Instance FlatRow_eq_dec : EqDecision FlatRow.
Proof. solve_decision. Defined.

(** ** The engine *)

(** The [spark] argument of the source: it reads the input file, and it holds
    the conversions from text that the casts of a string column use (null
    when the text is not a number of the target type). *)
Record SparkSession : Type := {
  read_json : string → Exception + DataFrame;
  text_to_int : string → option Z;
  text_to_double : string → option float }.

Definition int_min : Z := - 2 ^ 31.
Definition int_max : Z := 2 ^ 31 - 1.

(** long to int keeps the low 32 bits. *)
Definition long_to_int (n : Z) : Z := (n + 2 ^ 31) `mod` 2 ^ 32 - 2 ^ 31.

(** double to int rounds toward zero and saturates; NaN gives 0. *)
Definition double_to_int (x : float) : Z :=
  match Prim2SF x with
  | S754_zero _ => 0
  | S754_infinity s => if s then int_min else int_max
  | S754_nan => 0
  | S754_finite s m e =>
      let mag := Z.shiftl (Z.pos m) e in
      int_min `max` (int_max `min` (if s then - mag else mag))
  end.

(** long to double rounds to the nearest double. *)
Definition long_to_double (n : Z) : float :=
  let m := Z.abs n in
  let x := if m <? 2 ^ 63 then PrimFloat.of_uint63 (Uint63.of_Z m)
           else Z.ldexp 1 63 in
  if n <? 0 then (- x)%float else x.

(** [col.cast(IntegerType())]. *)
Definition cast_IntegerType (spark : SparkSession) (a : Atom) : option Z :=
  match a with
  | ANull => None
  | ABool b => Some (if b then 1 else 0)
  | ALong n => Some (long_to_int n)
  | ADouble x => Some (double_to_int x)
  | AStr s => text_to_int spark s
  end.

(** [col.cast(DoubleType())]. *)
Definition cast_DoubleType (spark : SparkSession) (a : Atom) : option float :=
  match a with
  | ANull => None
  | ABool b => Some (if b then 1 else 0)%float
  | ALong n => Some (long_to_double n)
  | ADouble x => Some x
  | AStr s => text_to_double spark s
  end.

(** ** Column operators *)

(** [explode_outer] of an array column: one row per element; a null or empty
    array gives one row with null. *)
Definition explode_outer {A} (c : option (list (option A))) : list (option A) :=
  match c with
  | None | Some [] => [None]
  | Some elements => elements
  end.

(** [element_at(array, index)], [index] counted from 1: null when the array
    is null or shorter than [index]. *)
Definition element_at {A} (c : option (list (option A))) (index : positive) : option A :=
  arr ← c; mjoin (arr !! (Pos.to_nat index - 1)%nat).

(** [coalesce(c, lit(d))]. *)
Definition coalesce {A} (c : option A) (d : A) : A := default d c.

Definition set_populacao (n : Z) (row : FlatRow) : FlatRow :=
  {| nome_comum := nome_comum row; nome_oficial := nome_oficial row;
     regiao := regiao row; sub_regiao := sub_regiao row; capital := capital row;
     populacao := n; area := area row; moeda_codigo := moeda_codigo row;
     moeda_nome := moeda_nome row; idioma := idioma row |}.

Definition set_area (x : float) (row : FlatRow) : FlatRow :=
  {| nome_comum := nome_comum row; nome_oficial := nome_oficial row;
     regiao := regiao row; sub_regiao := sub_regiao row; capital := capital row;
     populacao := populacao row; area := x; moeda_codigo := moeda_codigo row;
     moeda_nome := moeda_nome row; idioma := idioma row |}.

(** The engine groups doubles with the two zeros made one: -0.0 is 0.0. *)
Definition normalize_double (x : float) : float :=
  if PrimFloat.eqb x 0 then 0%float else x.

Definition normalize_row (row : FlatRow) : FlatRow :=
  set_area (normalize_double (area row)) row.

(** The first occurrence of each element. *)
Fixpoint dedup `{EqDecision A} (l : list A) : list A :=
  match l with
  | [] => []
  | x :: l' => x :: filter (λ y, y ≠ x) (dedup l')
  end.

(** [distinct()]: the rows grouped by their ten columns, one row of each
    group, with its doubles normalized. *)
Definition distinct (df : list FlatRow) : list FlatRow :=
  dedup (normalize_row <$> df).

(** ** The analysis of the plan *)

(** The engine checks each column expression against the schema when the
    DataFrame is built, and raises an [AnalysisException] for one that has
    no type.  The text of its message is not modelled. *)
Definition AnalysisException : Exception := EngineError "AnalysisException".

Definition lower_ascii (c : ascii) : ascii :=
  let n := Ascii.N_of_ascii c in
  if bool_decide (65 ≤ n ≤ 90)%N then Ascii.ascii_of_N (n + 32) else c.

Fixpoint lower (s : string) : string :=
  match s with
  | EmptyString => EmptyString
  | String c s' => String (lower_ascii c) (lower s')
  end.

(** A name is resolved among fields without regard to case; it has to match
    one field, and one only. *)
Definition resolve (fields : list StructField) (name : string) : option DataType :=
  match filter (λ f, lower (sf_name f) = lower name) fields with
  | [f] => Some (sf_dataType f)
  | _ => None
  end.

(** [col("c.name")]: the field of a struct column. *)
Definition struct_field (t : option DataType) (name : string) : option DataType :=
  match t with
  | Some (StructType fields) => resolve fields name
  | _ => None
  end.

(** The column that [withColumn(_, explode_outer(c))] adds, and the type of
    [element_at(c, 1)]: the element of an array.  A map explodes into two
    columns, which the single name of [withColumn] does not fit. *)
Definition array_element (t : option DataType) : option DataType :=
  match t with
  | Some (ArrayType elementType) => Some elementType
  | _ => None
  end.

(** [coalesce(c, lit("N/A"))] has a type when [c] is a string, or a number,
    which is then cast to string. *)
Definition is_text (t : DataType) : bool :=
  match t with
  | StringType | IntegerType | LongType | DoubleType | NullType => true
  | _ => false
  end.

(** [c.cast(IntegerType())] and [c.cast(DoubleType())] have a type when [c]
    is atomic. *)
Definition is_castable (t : DataType) : bool :=
  match t with
  | StringType | IntegerType | LongType | DoubleType | BooleanType | NullType => true
  | _ => false
  end.

Definition has_type (p : DataType → bool) (t : option DataType) : bool :=
  from_option p false t.

(** Whether the two [withColumn] and the ten expressions of the [select]
    have a type over the schema. *)
Definition analyze (schema : list StructField) : bool :=
  let currencies_map := array_element (resolve schema "currencies") in
  let languages_map := array_element (resolve schema "languages") in
  has_type (λ _, true) currencies_map
  && has_type (λ _, true) languages_map
  && has_type is_text (struct_field (resolve schema "name") "common")
  && has_type is_text (struct_field (resolve schema "name") "official")
  && has_type is_text (resolve schema "region")
  && has_type is_text (resolve schema "subregion")
  && has_type is_text (array_element (resolve schema "capital"))
  && has_type is_castable (resolve schema "population")
  && has_type is_castable (resolve schema "area")
  && has_type is_text (struct_field currencies_map "key")
  && has_type is_text (struct_field (struct_field currencies_map "value") "name")
  && has_type is_text (struct_field languages_map "value").

(** ** transformar_dados_paises *)

(** A row of [df_exploded]: the raw columns and the two exploded ones. *)
Record ExplodedRow : Type := {
  raw : Raw.Row;
  currencies_map : option (Entry.t Currency.t);
  languages_map : option (Entry.t string) }.

Definition df_exploded (df_raw : list Raw.Row) : list ExplodedRow :=
  '(r, c) ← (r ← df_raw; c ← explode_outer (Raw.currencies r); [(r, c)]);
  l ← explode_outer (Raw.languages r);
  [ {| raw := r; currencies_map := c; languages_map := l |} ].

(** The ten columns of the [select]. *)
Definition select_row (spark : SparkSession) (e : ExplodedRow) : FlatRow :=
  let r := raw e in
  {| nome_comum := coalesce (Raw.name r ≫= Name.common) "N/A";
     nome_oficial := coalesce (Raw.name r ≫= Name.official) "N/A";
     regiao := coalesce (Raw.region r) "N/A";
     sub_regiao := coalesce (Raw.subregion r) "N/A";
     capital := coalesce (element_at (Raw.capital r) 1) "N/A";
     populacao := coalesce (cast_IntegerType spark (Raw.population r)) 0;
     area := coalesce (cast_DoubleType spark (Raw.area r)) 0%float;
     moeda_codigo := coalesce (currencies_map e ≫= Entry.key) "N/A";
     moeda_nome :=
       coalesce (entry ← currencies_map e; value ← Entry.value entry;
                 Currency.name value) "N/A";
     idioma := coalesce (languages_map e ≫= Entry.value) "N/A" |}.

(** [df_exploded.select(...)], before [distinct()]. *)
Definition df_selected (spark : SparkSession) (df_raw : list Raw.Row) : list FlatRow :=
  select_row spark <$> df_exploded df_raw.

Definition df_final (spark : SparkSession) (df_raw : list Raw.Row) : list FlatRow :=
  distinct (df_selected spark df_raw).

(** [df_final.filter("populacao >= 0").count()]. *)
Definition count_valid_population (df : list FlatRow) : nat :=
  length (filter (λ row, 0 ≤ populacao row) df).

Definition lift_result {A} (r : Exception + A) : Run A := ([], r).

Definition transformar_dados_paises (spark : SparkSession) (input_path : string)
    : Run (list FlatRow) :=
  try_except
    (log INFO (MsgInfo "Iniciando a etapa de transformação.") ;;
     df_raw ← lift_result (read_json spark input_path);
     validar_schema_bruto (schema_fields df_raw) ;;
     log INFO (MsgInfo "Aplicando transformações para achatar a estrutura.") ;;
     (if analyze (schema_fields df_raw) then mret ()
      else raise AnalysisException) ;;
     let df := df_final spark (rows df_raw) in
     let count_total := length df in
     (if decide (count_total ≠ count_valid_population df)
      then log WARNING
             (MsgPopulacaoInvalida (count_total - count_valid_population df))
      else mret ()) ;;
     log INFO (MsgInfo "Transformação concluída.") ;;
     mret df)
    (λ e, log ERROR (MsgErroTransformacao (exception_str e)) ;; raise e).

(** The rows of [df_exploded] that come from one record: the product of its
    two expansions, currencies outermost. *)
Definition exploded_of (r : Raw.Row) : list ExplodedRow :=
  c ← explode_outer (Raw.currencies r);
  l ← explode_outer (Raw.languages r);
  [ {| raw := r; currencies_map := c; languages_map := l |} ].

(** The two columns that the select takes from an element of [currencies],
    and the one it takes from an element of [languages]. *)
Definition currency_columns (c : option (Entry.t Currency.t)) : string * string :=
  (coalesce (c ≫= Entry.key) "N/A",
   coalesce (entry ← c; value ← Entry.value entry; Currency.name value) "N/A").

Definition language_column (l : option (Entry.t string)) : string :=
  coalesce (l ≫= Entry.value) "N/A".

(** The columns of a row of the table that are read as text: five
    from the record, and three from one element of each of its arrays. *)
Definition text_columns (r : Raw.Row) (row : FlatRow) : Prop :=
  nome_comum row = coalesce (Raw.name r ≫= Name.common) "N/A"
  ∧ nome_oficial row = coalesce (Raw.name r ≫= Name.official) "N/A"
  ∧ regiao row = coalesce (Raw.region r) "N/A"
  ∧ sub_regiao row = coalesce (Raw.subregion r) "N/A"
  ∧ capital row = coalesce (element_at (Raw.capital r) 1) "N/A"
  ∧ ∃ c l, c ∈ explode_outer (Raw.currencies r)
           ∧ l ∈ explode_outer (Raw.languages r)
           ∧ (moeda_codigo row, moeda_nome row) = currency_columns c
           ∧ idioma row = language_column l.

(** What the count check logs for the final table. *)
Definition population_warning (df : list FlatRow) : list LogRecord :=
  if decide (length df ≠ count_valid_population df)
  then [(WARNING, MsgPopulacaoInvalida (length df - count_valid_population df))]
  else [].

(** The number of rows whose population is negative. *)
Definition count_negative_population (df : list FlatRow) : nat :=
  length (filter (λ row, populacao row < 0) df).

(** The updates of a record that the statements below use. *)
Definition with_population (a : Atom) (r : Raw.Row) : Raw.Row :=
  Raw.mk (Raw.name r) (Raw.currencies r) (Raw.languages r) (Raw.capital r)
         a (Raw.area r) (Raw.region r) (Raw.subregion r).

Definition with_area (a : Atom) (r : Raw.Row) : Raw.Row :=
  Raw.mk (Raw.name r) (Raw.currencies r) (Raw.languages r) (Raw.capital r)
         (Raw.population r) a (Raw.region r) (Raw.subregion r).


(** Two doubles that the engine groups together: equal, or both zero. *)
Definition same_double (x y : float) : Prop :=
  x = y ∨ (PrimFloat.eqb x 0 = true ∧ PrimFloat.eqb y 0 = true).

(** ** A session for the worked examples *)

Fixpoint digits_value (acc : Z) (s : string) : option Z :=
  match s with
  | EmptyString => Some acc
  | String c s' =>
      let d := Z.of_N (Ascii.N_of_ascii c) - 48 in
      if bool_decide (0 ≤ d ≤ 9) then digits_value (10 * acc + d) s' else None
  end.

(** An optional minus sign and one or more decimal digits. *)
Definition decimal_integer (s : string) : option Z :=
  match s with
  | EmptyString => None
  | String "-"%char EmptyString => None
  | String "-"%char s' => Z.opp <$> digits_value 0 s'
  | _ => digits_value 0 s
  end.

(** The session whose reader gives [df] at every path, and that converts the
    text of a plain decimal integer. *)
Definition session_of (df : DataFrame) : SparkSession :=
  {| read_json := λ _, inr df;
     text_to_int := λ s,
       n ← decimal_integer s;
       if bool_decide (int_min ≤ n ≤ int_max) then Some n else None;
     text_to_double := λ s, long_to_double <$> decimal_integer s |}.

(** The schema that [required_fields] describes, with numbers as the reader
    infers them (long and double).  The reader, given no schema, infers no
    map: this is the schema of a DataFrame read with one. *)
Definition schema_paises : list StructField :=
  [ ("area", DoubleType, true);
    ("capital", ArrayType StringType, true);
    ("currencies", MapType StringType
        (StructType [("name", StringType, true); ("symbol", StringType, true)]), true);
    ("languages", MapType StringType StringType, true);
    ("name", StructType [("common", StringType, true); ("official", StringType, true)], true);
    ("population", LongType, true);
    ("region", StringType, true);
    ("subregion", StringType, true) ].

(** A schema with the type of one field replaced. *)
Definition retype (name : string) (t : DataType) (schema : list StructField)
    : list StructField :=
  (λ f, if decide (sf_name f = name) then (name, t, true) else f) <$> schema.

(** The schema the reader infers when [currencies] and [languages] are
    written as JSON arrays of entries, each an object with the two members
    key and value. *)
Definition schema_entries : list StructField :=
  retype "currencies"
    (ArrayType (StructType
       [ ("key", StringType, true);
         ("value", StructType [("name", StringType, true);
                               ("symbol", StringType, true)], true) ]))
    (retype "languages"
       (ArrayType (StructType [("key", StringType, true); ("value", StringType, true)]))
       schema_paises).

(** The schema the reader infers from the Testland document of the
    specification, in which [currencies] and [languages] are JSON objects
    keyed by code: each is read as a struct with one field per code. *)
Definition schema_objects : list StructField :=
  retype "currencies"
    (StructType
       [ ("TST", StructType [("name", StringType, true);
                             ("symbol", StringType, true)], true) ])
    (retype "languages" (StructType [("tst", StringType, true)]) schema_paises).

(** [schema_entries] with [capital] an array of numbers, and with
    [population] an object. *)
Definition schema_capital_long : list StructField :=
  retype "capital" (ArrayType LongType) schema_entries.

Definition schema_population_struct : list StructField :=
  retype "population" (StructType [("total", LongType, true)]) schema_entries.

Definition testland : Raw.Row :=
  {| Raw.name := Some (Name.mk (Some "Testland") (Some "Republic of Testland"));
     Raw.currencies :=
       Some [Some (Entry.mk (Some "TST")
                     (Some (Currency.mk (Some "Test Dollar") (Some "$"))))];
     Raw.languages := Some [Some (Entry.mk (Some "tst") (Some "Testish"))];
     Raw.capital := Some [Some "TestCity"];
     Raw.population := ALong 1000;
     Raw.area := ADouble 50.5;
     Raw.region := Some "TestRegion";
     Raw.subregion := Some "TestSub" |}.

(** Testland, with [currencies] and [languages] as arrays of entries. *)
Definition df_testland : DataFrame :=
  {| schema_fields := schema_entries; rows := [testland] |}.

Definition testland_row : FlatRow :=
  {| nome_comum := "Testland"; nome_oficial := "Republic of Testland";
     regiao := "TestRegion"; sub_regiao := "TestSub"; capital := "TestCity";
     populacao := 1000; area := 50.5; moeda_codigo := "TST";
     moeda_nome := "Test Dollar"; idioma := "Testish" |}.

(** Testland with a population of -5 and a second language. *)
Definition negativia : Raw.Row :=
  Raw.mk (Raw.name testland) (Raw.currencies testland)
         (Some [Some (Entry.mk (Some "tst") (Some "Testish"));
                Some (Entry.mk (Some "eng") (Some "English"))])
         (Raw.capital testland) (ALong (-5)) (Raw.area testland)
         (Raw.region testland) (Raw.subregion testland).

Definition df_negativia : DataFrame :=
  {| schema_fields := schema_entries; rows := [negativia] |}.

(** Three currencies and two languages. *)
Definition tricurrency : Raw.Row :=
  Raw.mk (Raw.name testland)
         (Some [Some (Entry.mk (Some "TST")
                        (Some (Currency.mk (Some "Test Dollar") (Some "$"))));
                Some (Entry.mk (Some "EUR")
                        (Some (Currency.mk (Some "Euro") (Some "€"))));
                Some (Entry.mk (Some "USD")
                        (Some (Currency.mk (Some "United States dollar") (Some "$"))))])
         (Some [Some (Entry.mk (Some "tst") (Some "Testish"));
                Some (Entry.mk (Some "eng") (Some "English"))])
         (Raw.capital testland) (Raw.population testland) (Raw.area testland)
         (Raw.region testland) (Raw.subregion testland).

(** Two currencies, and two languages of one name. *)
Definition homonymous : Raw.Row :=
  Raw.mk (Raw.name testland)
         (Some [Some (Entry.mk (Some "TST")
                        (Some (Currency.mk (Some "Test Dollar") (Some "$"))));
                Some (Entry.mk (Some "EUR")
                        (Some (Currency.mk (Some "Euro") (Some "€"))))])
         (Some [Some (Entry.mk (Some "tst") (Some "Testish"));
                Some (Entry.mk (Some "tsh") (Some "Testish"))])
         (Raw.capital testland) (Raw.population testland) (Raw.area testland)
         (Raw.region testland) (Raw.subregion testland).

Definition df_homonymous : DataFrame :=
  {| schema_fields := schema_entries; rows := [homonymous] |}.

(** No currency, and two languages of the given names. *)
Definition cashless (lang1 lang2 : string) : Raw.Row :=
  Raw.mk (Some (Name.mk (Some "Cashless") (Some "Cashless Islands"))) (Some [])
         (Some [Some (Entry.mk (Some "aaa") (Some lang1));
                Some (Entry.mk (Some "bbb") (Some lang2))])
         (Raw.capital testland) (Raw.population testland) (Raw.area testland)
         (Raw.region testland) (Raw.subregion testland).

(** Testland and a cashless record: the first gives [currencies] its
    element type, which the reader cannot infer from an empty array. *)
Definition df_cashless (lang1 lang2 : string) : DataFrame :=
  {| schema_fields := schema_entries; rows := [testland; cashless lang1 lang2] |}.

(** Text that is no number in both numeric columns. *)
Definition textual : Raw.Row :=
  with_area (AStr "n/a") (with_population (AStr "abc") testland).

(** Every field null but the two arrays: no currency, one language. *)
Definition sparse : Raw.Row :=
  Raw.mk None (Some []) (Some [Some (Entry.mk (Some "tst") (Some "Testish"))])
         None ANull ANull None None.

Definition df_sparse : DataFrame :=
  {| schema_fields := schema_entries; rows := [testland; sparse] |}.

(** A schema whose outer classes are the declared ones and whose inner types
    are not: currencies a map of strings, capital an array of longs. *)
Definition schema_inner_drift : list StructField :=
  [ ("area", DoubleType, true);
    ("capital", ArrayType LongType, true);
    ("currencies", MapType StringType StringType, true);
    ("languages", MapType StringType StringType, true);
    ("name", StructType [("common", StringType, true); ("official", StringType, true)], true);
    ("population", IntegerType, true);
    ("region", StringType, true);
    ("subregion", StringType, true) ].

(** [schema_paises] without [region], and with [region] read as long. *)
Definition schema_sem_region : list StructField :=
  filter (λ f, sf_name f ≠ "region") schema_paises.

Definition schema_region_long : list StructField :=
  schema_sem_region ++ [("region", LongType, true)].

(** ** The driver *)

(** [CONFIG]. *)
Record Config : Type := {
  api_url : string;
  raw_data_path : string;
  processed_data_path : string;
  log_level : string;
  app_name : string;
  spark_master : string;
  spark_driver_memory : string }.

Definition CONFIG : Config :=
  {| api_url := "https://restcountries.com/v3.1/all";
     raw_data_path := "dados_brutos_paises.json";
     processed_data_path := "dados_processados_paises.parquet";
     log_level := "INFO";
     app_name := "PipelineJSONPaisesRobusto";
     spark_master := "local[*]";
     spark_driver_memory := "2g" |}.

(** The classes of requests.exceptions other than [HTTPError], which is a
    constructor of [Failure] below.  [ConnectTimeout] derives from both
    [ConnectionError] and [Timeout]; [ProxyError] and [SSLError] derive from
    [ConnectionError], [ReadTimeout] from [Timeout]; all derive from
    [RequestException]. *)
Inductive RequestsClass : Type :=
  | RequestException
  | ConnectionError
  | ProxyError
  | SSLError
  | Timeout
  | ConnectTimeout
  | ReadTimeout
  | TooManyRedirects
  | JSONDecodeError.

Definition is_ConnectionError (cls : RequestsClass) : bool :=
  match cls with
  | ConnectionError | ProxyError | SSLError | ConnectTimeout => true
  | _ => false
  end.

Definition is_Timeout (cls : RequestsClass) : bool :=
  match cls with
  | Timeout | ConnectTimeout | ReadTimeout => true
  | _ => false
  end.

(** An exception in the driver (a subclass of [Exception]): an [HTTPError]
    with the status code and the text of its response, another exception of
    requests, an exception of the transform, or any other one. *)
Inductive Failure : Type :=
  | HTTPError (msg : string) (status_code : Z) (text : string)
  | RequestsError (cls : RequestsClass) (msg : string)
  | TransformError (e : Exception)
  | OtherError (msg : string).

(** [str(e)]. *)
Definition failure_str (e : Failure) : string :=
  match e with
  | HTTPError msg _ _ => msg
  | RequestsError _ msg => msg
  | TransformError e => exception_str e
  | OtherError msg => msg
  end.

(** A response of [requests.get]; [json] is what [response.json()] gives. *)
Record Response : Type := {
  url : string;
  status_code : Z;
  reason : string;
  text : string;
  json : Failure + string }.

(** What is outside the program: the HTTP service, the file system for the
    raw file, the creation of the session, the Parquet writer. *)
Record World : Type := {
  requests_get : string → Z → Failure + Response;
  json_dump : string → string → option Failure;
  getOrCreate : Failure + SparkSession;
  write_parquet : list FlatRow → string → option Failure }.

Inductive LogLevel : Type := L_INFO | L_WARNING | L_ERROR | L_CRITICAL.

#[global] Instance LogLevel_eq_dec : EqDecision LogLevel.
Proof. solve_decision. Defined.

Definition of_Level (lvl : Level) : LogLevel :=
  match lvl with INFO => L_INFO | WARNING => L_WARNING | ERROR => L_ERROR end.

(** The messages of the driver, one constructor for each logging call. *)
Inductive DriverMessage : Type :=
  | DTransform (m : Message)
  | DInicioExtracao (url : string)
  | DBrutosSalvos (path : string)
  | DErroHTTP (status_code : Z) (text : string)
  | DErroConexao (e : string)
  | DErroTimeout
  | DErroRequisicao (e : string)
  | DSparkOk
  | DSparkFalha (e : string)
  | DInicioParquet (path : string)
  | DParquetOk
  | DParquetFalha (e : string)
  | DInicioPipeline
  | DSchemaFinal
  | DAmostra
  | DPipelineOk
  | DPipelineFalha (e : string)
  | DSparkFinalizada.

Definition format_driver_message (m : DriverMessage) : string :=
  match m with
  | DTransform m => format_message m
  | DInicioExtracao url => "Iniciando extração da API: " +:+ url
  | DBrutosSalvos path => "Dados brutos salvos com sucesso em: " +:+ path
  | DErroHTTP status_code text =>
      "Erro de status HTTP: " +:+ pretty status_code +:+ " - " +:+ text
  | DErroConexao e => "Erro de conexão com a API: " +:+ e
  | DErroTimeout => "A requisição para a API expirou (timeout)."
  | DErroRequisicao e => "Erro inesperado na requisição à API: " +:+ e
  | DSparkOk => "SparkSession inicializada com sucesso."
  | DSparkFalha e => "Falha ao inicializar SparkSession: " +:+ e
  | DInicioParquet path =>
      "Iniciando carregamento para o formato Parquet em: " +:+ path
  | DParquetOk => "Dados salvos em Parquet com sucesso."
  | DParquetFalha e => "Falha ao salvar o DataFrame em Parquet: " +:+ e
  | DInicioPipeline =>
      "--- INICIANDO PIPELINE DE PROCESSAMENTO DE DADOS DE PAÍSES ---"
  | DSchemaFinal => "Schema final do DataFrame transformado:"
  | DAmostra => "Amostra dos 10 primeiros registros transformados:"
  | DPipelineOk => "--- PIPELINE CONCLUÍDO COM SUCESSO ---"
  | DPipelineFalha e => "--- FALHA NA EXECUÇÃO DO PIPELINE: " +:+ e +:+ " ---"
  | DSparkFinalizada => "SparkSession finalizada."
  end.

(** What the driver does, in order: the records it logs and the calls it
    makes to the outside. *)
Inductive Event : Type :=
  | Logged (lvl : LogLevel) (m : DriverMessage)
  | HttpGet (url : string) (timeout : Z)
  | JsonDump (path : string) (dados : string)
  | BuildSession
  | PrintSchema
  | Show (n : Z)
  | WriteParquet (path : string) (table : list FlatRow)
  | SparkStop.

(** How a call ends: it returns, it raises an [Exception], or [sys.exit]
    was called ([SystemExit] is no [Exception]). *)
Inductive Outcome (A : Type) : Type :=
  | Returned (a : A)
  | Raised (e : Failure)
  | Exited (code : Z).
Arguments Returned {A} a.
Arguments Raised {A} e.
Arguments Exited {A} code.

Definition Proc (A : Type) : Type := list Event * Outcome A.

#[global] Instance Proc_ret : MRet Proc := λ A a, ([], Returned a).
#[global] Instance Proc_bind : MBind Proc := λ A B k m,
  match m.2 with
  | Returned a => (m.1 ++ (k a).1, (k a).2)
  | Raised e => (m.1, Raised e)
  | Exited code => (m.1, Exited code)
  end.

Definition did (ev : Event) : Proc unit := ([ev], Returned ()).
Definition logger (lvl : LogLevel) (m : DriverMessage) : Proc unit :=
  did (Logged lvl m).
Definition throw {A} (e : Failure) : Proc A := ([], Raised e).
Definition sys_exit {A} (code : Z) : Proc A := ([], Exited code).
Definition of_result {A} (r : Failure + A) : Proc A :=
  match r with inl e => throw e | inr a => mret a end.
Definition of_status (r : option Failure) : Proc unit :=
  match r with Some e => throw e | None => mret () end.

(** [try: body except Exception as e: handler(e)]. *)
Definition proc_except {A} (body : Proc A) (handler : Failure → Proc A) : Proc A :=
  match body.2 with
  | Raised e => (body.1 ++ (handler e).1, (handler e).2)
  | _ => body
  end.

(** [try: body finally: final]: [final] runs however [body] ends, and what
    it raises replaces the outcome of [body]. *)
Definition proc_finally {A} (body : Proc A) (final : Proc unit) : Proc A :=
  (body.1 ++ final.1,
   match final.2 with
   | Returned _ => body.2
   | Raised e => Raised e
   | Exited code => Exited code
   end).

(** The transform as a step of the driver. *)
Definition of_Run {A} (m : Run A) : Proc A :=
  ((λ r, Logged (of_Level r.1) (DTransform r.2)) <$> m.1,
   match m.2 with
   | inl e => Raised (TransformError e)
   | inr a => Returned a
   end).

(** [Response.raise_for_status()]: an [HTTPError] for a status from 400 to
    599. *)
Definition raise_for_status (response : Response) : Proc unit :=
  if bool_decide (400 ≤ status_code response < 500) then
    throw (HTTPError (pretty (status_code response) +:+ " Client Error: "
                        +:+ reason response +:+ " for url: " +:+ url response)
                     (status_code response) (text response))
  else if bool_decide (500 ≤ status_code response < 600) then
    throw (HTTPError (pretty (status_code response) +:+ " Server Error: "
                        +:+ reason response +:+ " for url: " +:+ url response)
                     (status_code response) (text response))
  else mret ().

(** The [except] clauses of [extrair_dados_api], tried in order. *)
Definition extrair_handler (e : Failure) : Proc unit :=
  match e with
  | HTTPError _ status_code text =>
      logger L_ERROR (DErroHTTP status_code text) ;; throw e
  | RequestsError cls msg =>
      if is_ConnectionError cls then
        logger L_ERROR (DErroConexao msg) ;; throw e
      else if is_Timeout cls then
        logger L_ERROR DErroTimeout ;; throw e
      else
        logger L_ERROR (DErroRequisicao msg) ;; throw e
  | _ => throw e
  end.

Definition extrair_dados_api (w : World) (url output_path : string) : Proc unit :=
  proc_except
    (logger L_INFO (DInicioExtracao url) ;;
     did (HttpGet url 30) ;;
     response ← of_result (requests_get w url 30);
     raise_for_status response ;;
     dados ← of_result (json response);
     did (JsonDump output_path dados) ;;
     of_status (json_dump w output_path dados) ;;
     logger L_INFO (DBrutosSalvos output_path))
    extrair_handler.

Definition inicializar_spark (w : World) : Proc SparkSession :=
  proc_except
    (did BuildSession ;;
     spark ← of_result (getOrCreate w);
     logger L_INFO DSparkOk ;;
     mret spark)
    (λ e, logger L_CRITICAL (DSparkFalha (failure_str e)) ;; sys_exit 1).

Definition carregar_dados_parquet (w : World) (df : list FlatRow)
    (output_path : string) : Proc unit :=
  proc_except
    (logger L_INFO (DInicioParquet output_path) ;;
     did (WriteParquet output_path df) ;;
     of_status (write_parquet w df output_path) ;;
     logger L_INFO DParquetOk)
    (λ e, logger L_ERROR (DParquetFalha (failure_str e)) ;; throw e).

(** The [try] block of [main] from the transform on, [spark] being set. *)
Definition main_with_spark (w : World) (spark : SparkSession) : Proc unit :=
  df_transformado ← of_Run (transformar_dados_paises spark (raw_data_path CONFIG));
  logger L_INFO DSchemaFinal ;;
  did PrintSchema ;;
  logger L_INFO DAmostra ;;
  did (Show 10) ;;
  carregar_dados_parquet w df_transformado (processed_data_path CONFIG) ;;
  logger L_INFO DPipelineOk.

(** The [try] block of [main], with the value of the variable [spark] when
    the block ends. *)
Definition main_try (w : World) : option SparkSession * Proc unit :=
  let extracted := extrair_dados_api w (api_url CONFIG) (raw_data_path CONFIG) in
  match extracted.2 with
  | Returned _ =>
      let started := inicializar_spark w in
      match started.2 with
      | Returned spark =>
          (Some spark,
           (extracted.1 ++ started.1 ++ (main_with_spark w spark).1,
            (main_with_spark w spark).2))
      | Raised e => (None, (extracted.1 ++ started.1, Raised e))
      | Exited code => (None, (extracted.1 ++ started.1, Exited code))
      end
  | Raised e => (None, (extracted.1, Raised e))
  | Exited code => (None, (extracted.1, Exited code))
  end.

Definition main (w : World) : Proc unit :=
  logger L_INFO DInicioPipeline ;;
  proc_finally
    (proc_except (main_try w).2
       (λ e, logger L_CRITICAL (DPipelineFalha (failure_str e)) ;; sys_exit 1))
    (match (main_try w).1 with
     | Some spark => did SparkStop ;; logger L_INFO DSparkFinalizada
     | None => mret ()
     end).

(** The status of the process that runs [main()]. *)
Definition exit_status (o : Outcome unit) : Z :=
  match o with
  | Returned _ => 0
  | Raised _ => 1
  | Exited code => code
  end.

(** A world for the worked examples: the service answers [response], the
    raw file is written, the session reads [df], and the Parquet writer
    answers [parquet]. *)
Definition world_of (response : Failure + Response) (df : DataFrame)
    (parquet : option Failure) : World :=
  {| requests_get := λ _ _, response;
     json_dump := λ _ _, None;
     getOrCreate := inr (session_of df);
     write_parquet := λ _ _, parquet |}.

Definition response_ok : Response :=
  {| url := "https://restcountries.com/v3.1/all"; status_code := 200;
     reason := "OK"; text := "[]"; json := inr "[]" |}.

Definition response_404 : Response :=
  {| url := "https://restcountries.com/v3.1/all"; status_code := 404;
     reason := "Not Found"; text := "{}"; json := inr "{}" |}.

(** The calls to the outside among the events, in order. *)
Definition is_call (ev : Event) : bool :=
  match ev with Logged _ _ => false | _ => true end.

Definition calls (evs : list Event) : list Event :=
  filter (λ ev, is_call ev = true) evs.

(** The messages logged at a level, in order. *)
Definition logged_at (lvl : LogLevel) (evs : list Event) : list DriverMessage :=
  omap (λ ev, match ev with
              | Logged lvl' m => if decide (lvl' = lvl) then Some m else None
              | _ => None
              end) evs.

#[global] Instance Level_eq_dec : EqDecision Level.
Proof. solve_decision. Defined.

(** The records of a log at a level, in order. *)
Definition records_at (lvl : Level) (l : list LogRecord) : list LogRecord :=
  filter (λ r, r.1 = lvl) l.

(** Testland and [negativia], in the two orders. *)
Definition df_two : list Raw.Row := [testland; negativia].
Definition df_two_swapped : list Raw.Row := [negativia; testland].

#[global] Instance RequestsClass_eq_dec : EqDecision RequestsClass.
Proof. solve_decision. Defined.

(** The events of a kind that [extrair_dados_api] gives rise to. *)
Definition extraction_event (ev : Event) : Prop :=
  match ev with
  | Logged L_INFO _ | Logged L_ERROR _ | HttpGet _ _ | JsonDump _ _ => True
  | _ => False
  end.

(** The events of the transform: records below the level CRITICAL. *)
Definition transform_event (ev : Event) : Prop :=
  match ev with
  | Logged L_CRITICAL _ => False
  | Logged _ (DTransform _) => True
  | _ => False
  end.

(** A world in which every stage succeeds, and the same with a session that
    cannot be created. *)
Definition world_ok : World := world_of (inr response_ok) df_testland None.

Definition world_no_spark : World :=
  {| requests_get := λ _ _, inr response_ok;
     json_dump := λ _ _, None;
     getOrCreate := inl (OtherError "Java gateway process exited");
     write_parquet := λ _ _, None |}.
(** * Properties *)

(** ** Logging computations *)

Section run_facts.
Context {A B : Type}.
Implicit Types (m : Run A) (k : A → Run B).

Lemma bind_raised m k e :
  outcome m = inl e → m ≫= k = (emitted m, inl e).
Proof.
  unfold outcome, emitted, mbind, Run_bind. by intros ->.
Qed.

Lemma bind_returned m k a :
  outcome m = inr a →
  m ≫= k = ((emitted m ++ emitted (k a))%list, outcome (k a)).
Proof.
  unfold outcome, emitted, mbind, Run_bind. by intros ->.
Qed.

Lemma log_bind lvl msg (k : unit → Run B) :
  log lvl msg ≫= k = ((lvl, msg) :: emitted (k ()), outcome (k ())).
Proof. reflexivity. Qed.

Lemma ret_bind a k : mret a ≫= k = k a.
Proof.
  unfold mbind, Run_bind, mret, Run_ret. simpl. by destruct (k a).
Qed.
End run_facts.

(** ** The schema check *)

Lemma schema_dict_snoc fields f :
  schema_dict (fields ++ [f]) = <[sf_name f := sf_dataType f]> (schema_dict fields).
Proof. unfold schema_dict. by rewrite foldl_app. Qed.

(** A name is a key of the dictionary exactly when a field of the schema
    bears it. *)
Lemma schema_dict_None (fields : list StructField) (name : string) :
  schema_dict fields !! name = None ↔ name ∉ (sf_name <$> fields).
Proof.
  induction fields as [|f fields IH] using rev_ind.
  - split; [intros _; apply not_elem_of_nil | done].
  - rewrite schema_dict_snoc, fmap_app, elem_of_app, lookup_insert_None. simpl.
    rewrite list_elem_of_singleton. rewrite IH. naive_solver.
Qed.

Lemma schema_dict_is_Some (fields : list StructField) (name : string) :
  is_Some (schema_dict fields !! name) ↔ name ∈ (sf_name <$> fields).
Proof.
  rewrite <- not_eq_None_Some, schema_dict_None.
  split; [apply dec_stable | auto].
Qed.

Section validar_campos_facts.
Implicit Types (items : list (string * DataType)) (d : gmap string DataType).

Lemma validar_campos_absent field expected rest d :
  d !! field = None →
  validar_campos ((field, expected) :: rest) d
  = ([], inl (TypeError (MsgCampoAusente field))).
Proof. simpl. by intros ->. Qed.

Lemma validar_campos_present field expected rest d actual :
  d !! field = Some actual →
  validar_campos ((field, expected) :: rest) d
  = ((warning_of field actual expected ++ emitted (validar_campos rest d))%list,
     outcome (validar_campos rest d)).
Proof.
  simpl. intros ->. unfold warning_of.
  destruct (isinstance actual (type_of expected)).
  - rewrite ret_bind. by destruct (validar_campos rest d).
  - by rewrite log_bind.
Qed.

(** Only an absent field is raised, and it is named. *)
Lemma validar_campos_raises items d exc :
  outcome (validar_campos items d) = inl exc →
  ∃ field, exc = TypeError (MsgCampoAusente field)
           ∧ field ∈ items.*1 ∧ d !! field = None.
Proof.
  induction items as [|[field expected] rest IH]; [done|].
  destruct (d !! field) as [actual|] eqn:E.
  - rewrite (validar_campos_present _ _ _ _ _ E). intros H.
    destruct (IH H) as (f & ? & ? & ?). exists f. set_solver.
  - rewrite (validar_campos_absent _ _ _ _ E). intros [= <-].
    exists field. set_solver.
Qed.

(** An absent field makes the loop raise at the first absent one. *)
Lemma validar_campos_missing items d :
  (∃ field, field ∈ items.*1 ∧ d !! field = None) →
  ∃ field, field ∈ items.*1 ∧ d !! field = None
           ∧ outcome (validar_campos items d)
             = inl (TypeError (MsgCampoAusente field)).
Proof.
  induction items as [|[field expected] rest IH].
  - intros (f & Hf & _). set_solver.
  - intros (f & Hf & Hnone).
    destruct (d !! field) as [actual|] eqn:E.
    + rewrite (validar_campos_present _ _ _ _ _ E).
      destruct IH as (g & ? & ? & ?).
      { exists f. split; [|done]. simpl in Hf.
        apply elem_of_cons in Hf as [->|]; [congruence | done]. }
      exists g. set_solver.
    + rewrite (validar_campos_absent _ _ _ _ E). exists field. set_solver.
Qed.

(** With every field present the loop returns, having warned of each
    field whose class differs. *)
Lemma validar_campos_returns items d :
  (∀ field, field ∈ items.*1 → is_Some (d !! field)) →
  outcome (validar_campos items d) = inr ()
  ∧ ∀ field expected actual,
      (field, expected) ∈ items → d !! field = Some actual →
      type_of actual ≠ type_of expected →
      (WARNING, MsgTipoDiferente field (type_of actual) (type_of expected))
        ∈ emitted (validar_campos items d).
Proof.
  induction items as [|[field expected] rest IH]; intros Hall.
  - split; [done|]. intros ??? H. by apply elem_of_nil in H.
  - destruct (Hall field) as [actual E]; [set_solver|].
    rewrite (validar_campos_present _ _ _ _ _ E).
    destruct IH as [IH1 IH2]; [intros; apply Hall; set_solver|].
    split; [done|]. intros f e a Hin Hf Hne. unfold emitted at 1. simpl.
    apply elem_of_app. apply elem_of_cons in Hin as [[= -> ->]|Hin].
    + left. assert (a = actual) as -> by congruence.
      unfold warning_of, isinstance. rewrite bool_decide_eq_false_2 by done.
      set_solver.
    + right. by apply IH2.
Qed.

(** Every warning of the loop comes from an item whose class differs. *)
Lemma validar_campos_warning items d lvl field a e :
  (lvl, MsgTipoDiferente field a e) ∈ emitted (validar_campos items d) →
  ∃ expected actual,
    (field, expected) ∈ items ∧ d !! field = Some actual
    ∧ a = type_of actual ∧ e = type_of expected
    ∧ type_of actual ≠ type_of expected.
Proof.
  induction items as [|[f expected] rest IH].
  - intros H. by apply elem_of_nil in H.
  - destruct (d !! f) as [actual|] eqn:E.
    + rewrite (validar_campos_present _ _ _ _ _ E). unfold emitted at 1. simpl.
      intros [H|H]%elem_of_app.
      * unfold warning_of, isinstance in H. case_bool_decide as Hc.
        { by apply elem_of_nil in H. }
        apply list_elem_of_singleton in H as [= -> -> -> ->].
        exists expected, actual. set_solver.
      * destruct (IH H) as (x & y & ? & ?). exists x, y. set_solver.
    + rewrite (validar_campos_absent _ _ _ _ E). intros H.
      by apply elem_of_nil in H.
Qed.
End validar_campos_facts.
(** ** distinct *)

Section dedup_facts.
Context `{EqDecision A}.
Implicit Types (l : list A) (x y : A).

Lemma elem_of_dedup l x : x ∈ dedup l ↔ x ∈ l.
Proof.
  induction l as [|y l IH]; [done|]. simpl.
  rewrite !elem_of_cons, list_elem_of_filter, IH.
  destruct (decide (x = y)); naive_solver.
Qed.

Lemma NoDup_dedup l : NoDup (dedup l).
Proof.
  induction l as [|y l IH]; simpl; [constructor|].
  apply NoDup_cons. split; [|by apply NoDup_filter].
  rewrite list_elem_of_filter. naive_solver.
Qed.

Lemma filter_all (P : A → Prop) `{∀ x, Decision (P x)} l :
  (∀ x, x ∈ l → P x) → filter P l = l.
Proof.
  induction l as [|y l IH]; intros Hall; [done|].
  rewrite filter_cons_True by (apply Hall; set_solver).
  f_equal. apply IH. intros; apply Hall; set_solver.
Qed.

Lemma dedup_NoDup l : NoDup l → dedup l = l.
Proof.
  induction 1 as [|y l Hy _ IH]; [done|]. simpl. rewrite IH. f_equal.
  apply filter_all. intros x Hx ->. done.
Qed.

Lemma dedup_idemp l : dedup (dedup l) = dedup l.
Proof. apply dedup_NoDup, NoDup_dedup. Qed.

Lemma length_dedup l : (length (dedup l) ≤ length l)%nat.
Proof.
  apply submseteq_length, NoDup_submseteq; [apply NoDup_dedup|].
  intros x. by rewrite elem_of_dedup.
Qed.

Lemma dedup_nonempty l : l ≠ [] → dedup l ≠ [].
Proof. by destruct l. Qed.
End dedup_facts.

Lemma normalize_double_idemp x :
  normalize_double (normalize_double x) = normalize_double x.
Proof.
  unfold normalize_double.
  destruct (PrimFloat.eqb x 0) eqn:E; [reflexivity | by rewrite E].
Qed.

Lemma normalize_row_idemp row : normalize_row (normalize_row row) = normalize_row row.
Proof.
  unfold normalize_row, set_area. cbn. by rewrite normalize_double_idemp.
Qed.

(** Two doubles are normalized to one exactly when they are equal or both
    zero. *)
Lemma normalize_double_eq x y :
  normalize_double x = normalize_double y ↔ same_double x y.
Proof.
  unfold normalize_double, same_double.
  destruct (PrimFloat.eqb x 0) eqn:Ex, (PrimFloat.eqb y 0) eqn:Ey.
  - naive_solver.
  - split.
    + intros <-. vm_compute in Ey. discriminate.
    + intros [-> | [_ ?]]; congruence.
  - split.
    + intros ->. vm_compute in Ex. discriminate.
    + intros [-> | [? _]]; congruence.
  - naive_solver.
Qed.

Lemma elem_of_distinct df row :
  row ∈ distinct df ↔ ∃ row', row' ∈ df ∧ row = normalize_row row'.
Proof.
  unfold distinct. rewrite elem_of_dedup, list_elem_of_fmap. naive_solver.
Qed.

Lemma NoDup_distinct df : NoDup (distinct df).
Proof. apply NoDup_dedup. Qed.

Lemma fmap_normalize_distinct df : normalize_row <$> distinct df = distinct df.
Proof.
  rewrite <- (list_fmap_id (distinct df)) at 2.
  apply Forall_fmap_ext_1, Forall_forall.
  intros row (row' & _ & ->)%elem_of_distinct. apply normalize_row_idemp.
Qed.

Lemma distinct_idemp df : distinct (distinct df) = distinct df.
Proof.
  unfold distinct at 1. rewrite fmap_normalize_distinct.
  apply dedup_NoDup, NoDup_distinct.
Qed.

Lemma length_distinct df : (length (distinct df) ≤ length df)%nat.
Proof.
  unfold distinct. etrans; [apply length_dedup|]. by rewrite length_fmap.
Qed.

Lemma distinct_nonempty df : df ≠ [] → distinct df ≠ [].
Proof. by destruct df. Qed.

(** ** The expansion *)

Section explode_facts.
Context {A : Type}.
Implicit Types (c : option (list (option A))).

Lemma explode_outer_nonempty c : explode_outer c ≠ [].
Proof. by destruct c as [[|??]|]. Qed.

Lemma explode_outer_elements c (elements : list (option A)) :
  c = Some elements → elements ≠ [] → explode_outer c = elements.
Proof. intros -> ?. by destruct elements. Qed.

Lemma explode_outer_synthetic c :
  c = None ∨ c = Some [] → explode_outer c = [None].
Proof. by intros [-> | ->]. Qed.
End explode_facts.

Lemma df_exploded_cons r df_raw :
  df_exploded (r :: df_raw) = exploded_of r ++ df_exploded df_raw.
Proof.
  unfold df_exploded, exploded_of. rewrite bind_cons, bind_app. f_equal.
  induction (explode_outer (Raw.currencies r)) as [|c cs IH]; [done|].
  rewrite !bind_cons, bind_app, IH. f_equal. simpl. apply app_nil_r.
Qed.

Lemma df_exploded_singleton r : df_exploded [r] = exploded_of r.
Proof. rewrite df_exploded_cons. apply app_nil_r. Qed.

Lemma df_selected_cons spark r df_raw :
  df_selected spark (r :: df_raw)
  = df_selected spark [r] ++ df_selected spark df_raw.
Proof.
  unfold df_selected. by rewrite df_exploded_cons, df_exploded_singleton, fmap_app.
Qed.

(** The rows of one record are among the rows of the collection. *)
Lemma df_selected_elem_of spark df_raw row :
  row ∈ df_selected spark df_raw ↔ ∃ r, r ∈ df_raw ∧ row ∈ df_selected spark [r].
Proof.
  induction df_raw as [|r df_raw IH].
  - change (df_selected spark []) with (@nil FlatRow). set_solver.
  - rewrite df_selected_cons, elem_of_app, IH. split.
    + intros [H | (r' & ? & ?)]; [exists r | exists r']; by rewrite elem_of_cons; auto.
    + intros (r' & [-> | ?]%elem_of_cons & ?); [by left | right; by exists r'].
Qed.

Lemma exploded_of_nonempty r : exploded_of r ≠ [].
Proof.
  unfold exploded_of.
  pose proof (explode_outer_nonempty (Raw.currencies r)).
  pose proof (explode_outer_nonempty (Raw.languages r)).
  destruct (explode_outer (Raw.currencies r)) as [|c cs]; [done|].
  destruct (explode_outer (Raw.languages r)) as [|l ls]; done.
Qed.

Lemma length_product {X Y C : Type} (f : X → Y → C) (xs : list X) (ys : list Y) :
  length (x ← xs; y ← ys; [f x y]) = (length xs * length ys)%nat.
Proof.
  induction xs as [|x xs IH]; [reflexivity|].
  rewrite bind_cons, length_app, IH. simpl. f_equal.
  clear IH. induction ys as [|y ys IHy]; [reflexivity|].
  rewrite bind_cons. simpl. by rewrite IHy.
Qed.

Lemma fmap_product {X Y C D : Type} (g : C → D) (f : X → Y → C)
    (xs : list X) (ys : list Y) :
  g <$> (x ← xs; y ← ys; [f x y]) = x ← xs; y ← ys; [g (f x y)].
Proof.
  induction xs as [|x xs IH]; [reflexivity|].
  rewrite !bind_cons, fmap_app, IH. f_equal.
  clear IH. induction ys as [|y ys IHy]; [reflexivity|].
  rewrite !bind_cons, fmap_app, IHy. reflexivity.
Qed.

Lemma elem_of_product {X Y C : Type} (f : X → Y → C) (xs : list X) (ys : list Y) z :
  z ∈ (x ← xs; y ← ys; [f x y]) ↔ ∃ x y, x ∈ xs ∧ y ∈ ys ∧ z = f x y.
Proof.
  rewrite list_elem_of_bind. split.
  - intros (x & (y & Hz & ?)%list_elem_of_bind & ?).
    apply list_elem_of_singleton in Hz. by exists x, y.
  - intros (x & y & ? & ? & ->). exists x. split; [|done].
    apply list_elem_of_bind. exists y. split; [|done].
    by apply list_elem_of_singleton.
Qed.

(** A product has no two equal elements when each of its elements
    determines a key of each factor, and the keys of each factor differ. *)
Lemma NoDup_product {X Y C P Q : Type} (f : X → Y → C) (p : X → P) (q : Y → Q)
    (xs : list X) (ys : list Y) :
  (∀ x y x' y', f x y = f x' y' → p x = p x' ∧ q y = q y') →
  NoDup (p <$> xs) → NoDup (q <$> ys) →
  NoDup (x ← xs; y ← ys; [f x y]).
Proof.
  intros Hf Hxs Hys. induction xs as [|x xs IH]; [constructor|].
  rewrite fmap_cons in Hxs. apply NoDup_cons in Hxs as [Hx Hxs].
  rewrite bind_cons. apply NoDup_app. split; [|split].
  - clear IH Hx Hxs. induction ys as [|y ys IHy]; [constructor|].
    rewrite fmap_cons in Hys. apply NoDup_cons in Hys as [Hy Hys].
    rewrite bind_cons. simpl. apply NoDup_cons. split; [|by apply IHy].
    intros (y' & Hz & Hy')%list_elem_of_bind.
    apply list_elem_of_singleton in Hz. apply Hf in Hz as [_ Hq].
    apply Hy. rewrite Hq. apply list_elem_of_fmap. by exists y'.
  - intros z (y & Hz & _)%list_elem_of_bind (x' & y' & Hx' & _ & ->)%elem_of_product.
    apply list_elem_of_singleton in Hz. apply Hf in Hz as [Hp _].
    apply Hx. rewrite <- Hp. apply list_elem_of_fmap. by exists x'.
  - by apply IH.
Qed.

(** The rows that one record gives: one per pair of elements. *)
Lemma df_selected_singleton spark r :
  df_selected spark [r]
  = c ← explode_outer (Raw.currencies r);
    l ← explode_outer (Raw.languages r);
    [ select_row spark {| raw := r; currencies_map := c; languages_map := l |} ].
Proof.
  unfold df_selected. rewrite df_exploded_singleton. apply fmap_product.
Qed.

Lemma df_selected_nonempty spark r : df_selected spark [r] ≠ [].
Proof.
  unfold df_selected. rewrite df_exploded_singleton.
  pose proof (exploded_of_nonempty r). by destruct (exploded_of r).
Qed.

Lemma length_nonempty {X} (l : list X) : l ≠ [] → (0 < length l)%nat.
Proof. destruct l; [done | simpl; lia]. Qed.

Lemma elem_of_df_final spark df_raw row :
  row ∈ df_final spark df_raw
  ↔ ∃ row', row' ∈ df_selected spark df_raw ∧ row = normalize_row row'.
Proof. apply elem_of_distinct. Qed.

(** The rows that a record gives alone are rows of the table. *)
Lemma df_final_elem_of spark df_raw r row :
  r ∈ df_raw → row ∈ df_final spark [r] → row ∈ df_final spark df_raw.
Proof.
  intros Hr (row' & Hrow & ->)%elem_of_df_final. apply elem_of_df_final.
  exists row'. split; [|done]. apply df_selected_elem_of. by exists r.
Qed.

Lemma df_final_nonempty spark r : ∃ row, row ∈ df_final spark [r].
Proof.
  pose proof (distinct_nonempty _ (df_selected_nonempty spark r)) as H.
  fold (df_final spark [r]) in H.
  destruct (df_final spark [r]) as [|row l]; [done|].
  exists row. apply elem_of_cons. by left.
Qed.

(** What a row of the table takes from the record, and from one element of
    each array. *)
Lemma df_final_columns spark r row :
  row ∈ df_final spark [r] →
  populacao row = coalesce (cast_IntegerType spark (Raw.population r)) 0
  ∧ area row
    = normalize_double (coalesce (cast_DoubleType spark (Raw.area r)) 0%float)
  ∧ text_columns r row.
Proof.
  intros (row' & Hrow & ->)%elem_of_df_final.
  rewrite df_selected_singleton in Hrow.
  apply elem_of_product in Hrow as (c & l & Hc & Hl & ->).
  do 2 (split; [reflexivity|]). unfold text_columns.
  do 5 (split; [reflexivity|]). by exists c, l.
Qed.

(** ** The whole transform *)

Lemma last_snoc2 {X} (l : list X) (y z : X) : last (l ++ [y; z]) = Some z.
Proof.
  change [y; z] with ([y] ++ [z]). rewrite app_assoc. apply last_snoc.
Qed.

Lemma validar_schema_bruto_unfold fields :
  validar_schema_bruto fields
  = ((INFO, MsgInfo "Iniciando validação de schema dos dados brutos.")
       :: emitted (validar_campos required_fields (schema_dict fields))
       ++ match outcome (validar_campos required_fields (schema_dict fields)) with
          | inl _ => []
          | inr _ => [(INFO, MsgInfo "Validação de schema concluída com sucesso.")]
          end,
     outcome (validar_campos required_fields (schema_dict fields))).
Proof.
  unfold validar_schema_bruto. rewrite log_bind.
  destruct (validar_campos required_fields (schema_dict fields)) as [l [e|[]]] eqn:E.
  - by rewrite (bind_raised _ _ e), app_nil_r.
  - by rewrite (bind_returned _ _ ()).
Qed.

Lemma outcome_validar_schema_bruto fields :
  outcome (validar_schema_bruto fields)
  = outcome (validar_campos required_fields (schema_dict fields)).
Proof. by rewrite validar_schema_bruto_unfold. Qed.

(** When the input is read, the schema check returns and the plan is
    accepted, the transform returns the deduplicated table, whatever the
    cells hold. *)
Lemma transformar_returns spark input_path df :
  read_json spark input_path = inr df →
  outcome (validar_schema_bruto (schema_fields df)) = inr () →
  analyze (schema_fields df) = true →
  transformar_dados_paises spark input_path
  = ((INFO, MsgInfo "Iniciando a etapa de transformação.")
       :: emitted (validar_schema_bruto (schema_fields df))
       ++ (INFO, MsgInfo "Aplicando transformações para achatar a estrutura.")
       :: population_warning (df_final spark (rows df))
       ++ [(INFO, MsgInfo "Transformação concluída.")],
     inr (df_final spark (rows df))).
Proof.
  intros Hread Hval Hplan. unfold transformar_dados_paises.
  rewrite log_bind, Hread. unfold lift_result at 1 2.
  rewrite (bind_returned (_, inr df) _ df) by done.
  rewrite (bind_returned (validar_schema_bruto _) _ ()) by done.
  rewrite log_bind, Hplan, ret_bind. unfold population_warning.
  destruct (decide _); [rewrite log_bind | rewrite ret_bind]; reflexivity.
Qed.

Lemma transformar_read_fails spark input_path e :
  read_json spark input_path = inl e →
  transformar_dados_paises spark input_path
  = ([ (INFO, MsgInfo "Iniciando a etapa de transformação.");
       (ERROR, MsgErroTransformacao (exception_str e)) ],
     inl e).
Proof.
  intros Hread. unfold transformar_dados_paises.
  rewrite log_bind, Hread. unfold lift_result at 1 2.
  rewrite (bind_raised (_, inl e) _ e) by done. reflexivity.
Qed.

(** When the schema check raises, the transform logs the error and raises
    the same exception. *)
Lemma transformar_check_fails spark input_path df e :
  read_json spark input_path = inr df →
  outcome (validar_schema_bruto (schema_fields df)) = inl e →
  transformar_dados_paises spark input_path
  = ((INFO, MsgInfo "Iniciando a etapa de transformação.")
       :: emitted (validar_schema_bruto (schema_fields df))
       ++ [(ERROR, MsgErroTransformacao (exception_str e))],
     inl e).
Proof.
  intros Hread Hval. unfold transformar_dados_paises.
  rewrite log_bind, Hread. unfold lift_result at 1 2.
  rewrite (bind_returned (_, inr df) _ df) by done.
  rewrite (bind_raised (validar_schema_bruto _) _ e) by done.
  unfold try_except, outcome, emitted. cbn [fst snd]. rewrite log_bind.
  reflexivity.
Qed.

(** When the plan is rejected, the transform logs the error and raises the
    exception of the analysis; no row is read. *)
Lemma transformar_plan_fails spark input_path df :
  read_json spark input_path = inr df →
  outcome (validar_schema_bruto (schema_fields df)) = inr () →
  analyze (schema_fields df) = false →
  transformar_dados_paises spark input_path
  = ((INFO, MsgInfo "Iniciando a etapa de transformação.")
       :: emitted (validar_schema_bruto (schema_fields df))
       ++ [ (INFO, MsgInfo "Aplicando transformações para achatar a estrutura.");
            (ERROR, MsgErroTransformacao (exception_str AnalysisException)) ],
     inl AnalysisException).
Proof.
  intros Hread Hval Hplan. unfold transformar_dados_paises.
  rewrite log_bind, Hread. unfold lift_result at 1 2.
  rewrite (bind_returned (_, inr df) _ df) by done.
  rewrite (bind_returned (validar_schema_bruto _) _ ()) by done.
  rewrite log_bind, Hplan.
  rewrite (bind_raised (raise AnalysisException) _ AnalysisException) by done.
  unfold try_except, outcome, emitted, raise. cbn [fst snd]. rewrite log_bind.
  unfold emitted, outcome, raise. cbn [fst snd app]. rewrite ?app_nil_r.
  repeat (rewrite <- app_assoc || rewrite <- app_comm_cons). reflexivity.
Qed.

(** The four ways the transform ends. *)
Lemma transformar_cases spark input_path :
  (∃ e, read_json spark input_path = inl e
        ∧ transformar_dados_paises spark input_path
          = ([ (INFO, MsgInfo "Iniciando a etapa de transformação.");
               (ERROR, MsgErroTransformacao (exception_str e)) ], inl e))
  ∨ (∃ df e, read_json spark input_path = inr df
        ∧ outcome (validar_schema_bruto (schema_fields df)) = inl e
        ∧ transformar_dados_paises spark input_path
          = ((INFO, MsgInfo "Iniciando a etapa de transformação.")
               :: emitted (validar_schema_bruto (schema_fields df))
               ++ [(ERROR, MsgErroTransformacao (exception_str e))], inl e))
  ∨ (∃ df, read_json spark input_path = inr df
        ∧ outcome (validar_schema_bruto (schema_fields df)) = inr ()
        ∧ analyze (schema_fields df) = false
        ∧ transformar_dados_paises spark input_path
          = ((INFO, MsgInfo "Iniciando a etapa de transformação.")
               :: emitted (validar_schema_bruto (schema_fields df))
               ++ [ (INFO, MsgInfo "Aplicando transformações para achatar a estrutura.");
                    (ERROR, MsgErroTransformacao (exception_str AnalysisException)) ],
             inl AnalysisException))
  ∨ (∃ df, read_json spark input_path = inr df
        ∧ outcome (validar_schema_bruto (schema_fields df)) = inr ()
        ∧ analyze (schema_fields df) = true
        ∧ transformar_dados_paises spark input_path
          = ((INFO, MsgInfo "Iniciando a etapa de transformação.")
               :: emitted (validar_schema_bruto (schema_fields df))
               ++ (INFO, MsgInfo "Aplicando transformações para achatar a estrutura.")
               :: population_warning (df_final spark (rows df))
               ++ [(INFO, MsgInfo "Transformação concluída.")],
             inr (df_final spark (rows df)))).
Proof.
  destruct (read_json spark input_path) as [e|df] eqn:Hread.
  - left. exists e. split; [done|]. by apply transformar_read_fails.
  - destruct (outcome (validar_schema_bruto (schema_fields df))) as [e|[]] eqn:Hval.
    + right; left. exists df, e. do 2 (split; [done|]).
      by apply transformar_check_fails.
    + destruct (analyze (schema_fields df)) eqn:Hplan.
      * do 3 right. exists df. do 3 (split; [done|]). by apply transformar_returns.
      * right; right; left. exists df. do 3 (split; [done|]).
        by apply transformar_plan_fails.
Qed.

(** What a returned table says of the run that returned it. *)
Lemma transformar_returned spark input_path table :
  outcome (transformar_dados_paises spark input_path) = inr table →
  ∃ df, read_json spark input_path = inr df
        ∧ outcome (validar_schema_bruto (schema_fields df)) = inr ()
        ∧ analyze (schema_fields df) = true
        ∧ table = df_final spark (rows df)
        ∧ emitted (transformar_dados_paises spark input_path)
          = (INFO, MsgInfo "Iniciando a etapa de transformação.")
              :: emitted (validar_schema_bruto (schema_fields df))
              ++ (INFO, MsgInfo "Aplicando transformações para achatar a estrutura.")
              :: population_warning (df_final spark (rows df))
              ++ [(INFO, MsgInfo "Transformação concluída.")].
Proof.
  intros Ht.
  destruct (transformar_cases spark input_path)
    as [(e & _ & E) | [(df & e & _ & _ & E)
       | [(df & _ & _ & _ & E) | (df & Hread & Hval & Hplan & E)]]];
    rewrite E in Ht |- *; try discriminate.
  injection Ht as <-. by exists df.
Qed.

(** The plan is rejected when an expanded column is not an array. *)
Lemma analyze_needs_arrays schema :
  array_element (resolve schema "currencies") = None
  ∨ array_element (resolve schema "languages") = None →
  analyze schema = false.
Proof.
  unfold analyze. intros [-> | ->]; cbn [has_type from_option andb]; [done|].
  by rewrite andb_false_r.
Qed.

(** The plan is rejected when a cast column is not atomic. *)
Lemma analyze_needs_castable schema :
  has_type is_castable (resolve schema "population") = false
  ∨ has_type is_castable (resolve schema "area") = false →
  analyze schema = false.
Proof.
  unfold analyze. intros [-> | ->];
    repeat (rewrite ?andb_false_r, ?andb_false_l; cbn [andb]); reflexivity.
Qed.

(** The count that the warning reports is the number of rows of the table
    whose population is negative. *)
Lemma invalid_population_count (df : list FlatRow) :
  (length df - count_valid_population df)%nat = count_negative_population df.
Proof.
  unfold count_valid_population, count_negative_population.
  induction df as [|row df IH]; [done|].
  destruct (decide (0 ≤ populacao row)).
  - rewrite filter_cons_True, filter_cons_False by lia. simpl. done.
  - rewrite filter_cons_False, filter_cons_True by lia. simpl.
    pose proof (length_filter (λ row, 0 ≤ populacao row) df). lia.
Qed.

(** * The claims *)

Lemma NoDup_fst_functional {K V} (l : list (K * V)) k (v1 v2 : V) :
  NoDup l.*1 → (k, v1) ∈ l → (k, v2) ∈ l → v1 = v2.
Proof.
  induction l as [|[k' v'] l IH]; simpl.
  - intros _ H. by apply elem_of_nil in H.
  - intros [Hk Hnd]%NoDup_cons [[= -> ->]|H1]%elem_of_cons [[= ->]|H2]%elem_of_cons.
    + done.
    + destruct Hk. apply list_elem_of_fmap. by exists (k', v2).
    + destruct Hk. apply list_elem_of_fmap. by exists (k', v1).
    + by apply IH.
Qed.

Lemma required_fields_NoDup : NoDup required_fields.*1.
Proof. apply (bool_decide_unpack _). vm_compute. exact I. Qed.

Lemma required_fields_functional field (e1 e2 : DataType) :
  (field, e1) ∈ required_fields → (field, e2) ∈ required_fields → e1 = e2.
Proof. apply NoDup_fst_functional, required_fields_NoDup. Qed.

Lemma emitted_validar_schema_bruto_warning fields lvl field a e :
  (lvl, MsgTipoDiferente field a e) ∈ emitted (validar_schema_bruto fields)
  ↔ (lvl, MsgTipoDiferente field a e)
      ∈ emitted (validar_campos required_fields (schema_dict fields)).
Proof.
  rewrite validar_schema_bruto_unfold.
  generalize (validar_campos required_fields (schema_dict fields)).
  intros [l [exc|u]]; unfold emitted, outcome; simpl;
    rewrite elem_of_cons, elem_of_app, ?elem_of_nil, ?list_elem_of_singleton;
    naive_solver.
Qed.
Lemma validar_campos_messages items d r :
  r ∈ emitted (validar_campos items d) →
  ∃ field a e, r = (WARNING, MsgTipoDiferente field a e).
Proof.
  induction items as [|[field expected] rest IH].
  - intros H. by apply elem_of_nil in H.
  - destruct (d !! field) as [actual|] eqn:E.
    + rewrite (validar_campos_present _ _ _ _ _ E). unfold emitted at 1. cbn [fst].
      intros [H|H]%elem_of_app; [|by apply IH].
      unfold warning_of in H. destruct (isinstance actual (type_of expected)).
      * by apply elem_of_nil in H.
      * apply list_elem_of_singleton in H as ->. eauto.
    + rewrite (validar_campos_absent _ _ _ _ E). intros H. by apply elem_of_nil in H.
Qed.

Lemma emitted_validar_schema_bruto_level fields lvl field a e :
  (lvl, MsgTipoDiferente field a e) ∈ emitted (validar_schema_bruto fields) →
  lvl = WARNING.
Proof.
  intros H%emitted_validar_schema_bruto_warning.
  apply validar_campos_messages in H as (? & ? & ? & [= -> _ _ _]). reflexivity.
Qed.

(** C2, the counterexample.  [capital] is read as an array of numbers where
    an array of strings is declared; the check returns, and its log has a
    warning for each of the three fields whose class differs and none for
    [capital]. *)
Lemma validar_inner_shape_unwarned :
  schema_dict schema_capital_long !! "capital" = Some (ArrayType LongType)
  ∧ validar_schema_bruto schema_capital_long
    = ([ (INFO, MsgInfo "Iniciando validação de schema dos dados brutos.");
         (WARNING, MsgTipoDiferente "currencies" CArrayType CMapType);
         (WARNING, MsgTipoDiferente "languages" CArrayType CMapType);
         (WARNING, MsgTipoDiferente "population" CLongType CIntegerType);
         (INFO, MsgInfo "Validação de schema concluída com sucesso.") ],
       inr ()).
Proof. split; vm_compute; reflexivity. Qed.

(** C2, as the code has it.  [validar_schema_bruto] raises a [TypeError]
    that names an absent field whenever a required field is absent from the
    schema; a field that is present is never what it raises for.  When every
    required field is present the check returns, and it has warned of a
    field exactly when the class of its type differs from the class of the
    declared one.  Every warning of the check is of that kind: the types
    inside a struct, a map or an array are not compared. *)
Theorem validar_schema_bruto_absent_raises_class_warns (fields : list StructField) :
  ((∃ field, field ∈ required_fields.*1 ∧ field ∉ (sf_name <$> fields)) →
     ∃ field, field ∈ required_fields.*1 ∧ (field ∉ (sf_name <$> fields))
       ∧ outcome (validar_schema_bruto fields)
         = inl (TypeError (MsgCampoAusente field)))
  ∧ (∀ field, field ∈ (sf_name <$> fields) →
       outcome (validar_schema_bruto fields)
       ≠ inl (TypeError (MsgCampoAusente field)))
  ∧ ((∀ field, field ∈ required_fields.*1 → field ∈ (sf_name <$> fields)) →
       outcome (validar_schema_bruto fields) = inr ()
       ∧ (∀ field expected actual,
            (field, expected) ∈ required_fields →
            schema_dict fields !! field = Some actual →
            ((WARNING, MsgTipoDiferente field (type_of actual) (type_of expected))
               ∈ emitted (validar_schema_bruto fields)
             ↔ type_of actual ≠ type_of expected)))
  ∧ (∀ lvl field a e,
       (lvl, MsgTipoDiferente field a e) ∈ emitted (validar_schema_bruto fields) →
       lvl = WARNING
       ∧ ∃ expected actual,
           (field, expected) ∈ required_fields
           ∧ schema_dict fields !! field = Some actual
           ∧ a = type_of actual ∧ e = type_of expected
           ∧ type_of actual ≠ type_of expected).
Proof.
  split; [|split; [|split]].
  - intros (f & Hreq & Habs).
    destruct (validar_campos_missing required_fields (schema_dict fields))
      as (g & ? & Hg & ?).
    { exists f. by rewrite schema_dict_None. }
    exists g. rewrite outcome_validar_schema_bruto.
    by rewrite <- schema_dict_None.
  - intros f Hf. rewrite outcome_validar_schema_bruto. intros H.
    apply validar_campos_raises in H as (g & [= <-] & _ & Hg).
    by apply schema_dict_None in Hg.
  - intros Hall.
    destruct (validar_campos_returns required_fields (schema_dict fields))
      as [Hok Hwarn].
    { intros f Hf. by apply schema_dict_is_Some, Hall. }
    split; [by rewrite outcome_validar_schema_bruto|].
    intros f e a Hreq Hlook. split.
    + intros H%emitted_validar_schema_bruto_warning.
      apply validar_campos_warning in H as (e' & a' & Hreq' & Hlook' & _ & _ & Hne).
      rewrite (required_fields_functional _ _ _ Hreq' Hreq) in Hne. congruence.
    + intros Hne. apply emitted_validar_schema_bruto_warning. by apply Hwarn.
  - intros lvl f a e H. split; [by eapply emitted_validar_schema_bruto_level|].
    apply emitted_validar_schema_bruto_warning in H.
    by apply validar_campos_warning in H.
Qed.

Lemma validar_schema_bruto_absent_raises_class_warns_witness :
  (∃ field, field ∈ required_fields.*1 ∧ (field ∉ (sf_name <$> schema_sem_region))
     ∧ outcome (validar_schema_bruto schema_sem_region)
       = inl (TypeError (MsgCampoAusente field)))
  ∧ outcome (validar_schema_bruto schema_region_long) = inr ()
  ∧ (WARNING, MsgTipoDiferente "region" CLongType CStringType)
      ∈ emitted (validar_schema_bruto schema_region_long).
Proof.
  split; [|split].
  - apply (proj1 (validar_schema_bruto_absent_raises_class_warns schema_sem_region)).
    exists "region". split; apply (bool_decide_unpack _); vm_compute; exact I.
  - apply (proj1 (proj2 (proj2
      (validar_schema_bruto_absent_raises_class_warns schema_region_long)))).
    apply Forall_forall. apply (bool_decide_unpack _). vm_compute. exact I.
  - destruct (proj1 (proj2 (proj2
      (validar_schema_bruto_absent_raises_class_warns schema_region_long))))
      as [_ H].
    { apply Forall_forall. apply (bool_decide_unpack _). vm_compute. exact I. }
    apply (H "region" StringType LongType).
    + unfold required_fields. rewrite !elem_of_cons. auto 10.
    + vm_compute. reflexivity.
    + discriminate.
Defined.

(** The two cases of the specification: [region] absent, [region] read as
    long. *)
Example validar_sem_region :
  outcome (validar_schema_bruto schema_sem_region)
  = inl (TypeError (MsgCampoAusente "region")).
Proof. vm_compute. reflexivity. Qed.

Example validar_region_long :
  validar_schema_bruto schema_region_long
  = ([ (INFO, MsgInfo "Iniciando validação de schema dos dados brutos.");
       (WARNING, MsgTipoDiferente "population" CLongType CIntegerType);
       (WARNING, MsgTipoDiferente "region" CLongType CStringType);
       (INFO, MsgInfo "Validação de schema concluída com sucesso.") ],
     inr ()).
Proof. vm_compute. reflexivity. Qed.

(** C10. The check is shallow: a required field whose type has the declared
    outer class passes with neither a warning nor an error for it, whatever
    its inner types are. *)
Theorem validar_schema_bruto_shallow (fields : list StructField) (field : string)
    (expected actual : DataType) :
  (field, expected) ∈ required_fields →
  schema_dict fields !! field = Some actual →
  type_of actual = type_of expected →
  (∀ lvl a e, (lvl, MsgTipoDiferente field a e) ∉ emitted (validar_schema_bruto fields))
  ∧ outcome (validar_schema_bruto fields) ≠ inl (TypeError (MsgCampoAusente field)).
Proof.
  intros Hreq Hlook Hclass. split.
  - intros lvl a e Hin. apply emitted_validar_schema_bruto_warning in Hin.
    apply validar_campos_warning in Hin as (e' & a' & Hreq' & Hlook' & _ & _ & Hne).
    rewrite (required_fields_functional _ _ _ Hreq' Hreq) in Hne. congruence.
  - rewrite outcome_validar_schema_bruto. intros H.
    apply validar_campos_raises in H as (g & [= <-] & _ & Hg). congruence.
Qed.

Lemma validar_schema_bruto_shallow_witness :
  ((∀ lvl a e,
      (lvl, MsgTipoDiferente "currencies" a e)
        ∉ emitted (validar_schema_bruto schema_inner_drift))
   ∧ outcome (validar_schema_bruto schema_inner_drift)
     ≠ inl (TypeError (MsgCampoAusente "currencies")))
  ∧ ((∀ lvl a e,
        (lvl, MsgTipoDiferente "capital" a e)
          ∉ emitted (validar_schema_bruto schema_inner_drift))
     ∧ outcome (validar_schema_bruto schema_inner_drift)
       ≠ inl (TypeError (MsgCampoAusente "capital"))).
Proof.
  split.
  - apply (validar_schema_bruto_shallow schema_inner_drift "currencies"
             (MapType StringType
                (StructType [("name", StringType, true); ("symbol", StringType, true)]))
             (MapType StringType StringType)).
    + unfold required_fields. rewrite !elem_of_cons. auto.
    + vm_compute. reflexivity.
    + reflexivity.
  - apply (validar_schema_bruto_shallow schema_inner_drift "capital"
             (ArrayType StringType) (ArrayType LongType)).
    + unfold required_fields. rewrite !elem_of_cons. auto.
    + vm_compute. reflexivity.
    + reflexivity.
Defined.

Lemma long_to_int_small n : int_min ≤ n ≤ int_max → long_to_int n = n.
Proof.
  unfold int_min, int_max, long_to_int. intros ?.
  rewrite Z.mod_small by lia. lia.
Qed.

(** C1, as the code has it.  When the transform returns, a negative
    population in the 32-bit range passes the cast unchanged: every row that
    the record gives carries it, none is dropped and none falls back to 0,
    and each is a row of the table.  The warning of the run reports the
    number of rows of the table whose population is negative, which counts
    this record once for each distinct row it gives. *)
Theorem negative_population_kept_and_counted (spark : SparkSession)
    (input_path : string) (df : DataFrame) (r : Raw.Row) (n : Z) :
  read_json spark input_path = inr df →
  outcome (validar_schema_bruto (schema_fields df)) = inr () →
  analyze (schema_fields df) = true →
  r ∈ rows df →
  Raw.population r = ALong n →
  int_min ≤ n < 0 →
  outcome (transformar_dados_paises spark input_path)
  = inr (df_final spark (rows df))
  ∧ (∀ row, row ∈ df_selected spark [r] → populacao row = n)
  ∧ (∀ row, row ∈ df_final spark [r] →
       populacao row = n ∧ row ∈ df_final spark (rows df))
  ∧ (WARNING,
     MsgPopulacaoInvalida
       (count_negative_population (df_final spark (rows df))))
      ∈ emitted (transformar_dados_paises spark input_path)
  ∧ (1 ≤ length (df_final spark [r])
       ≤ count_negative_population (df_final spark (rows df)))%nat.
Proof.
  intros Hread Hval Hplan Hr Hpop Hn.
  assert (Hsel : ∀ row, row ∈ df_selected spark [r] → populacao row = n).
  { intros row Hrow. rewrite df_selected_singleton in Hrow.
    apply elem_of_product in Hrow as (c & l & _ & _ & ->).
    unfold select_row. simpl. rewrite Hpop. simpl.
    apply long_to_int_small. unfold int_max. lia. }
  assert (Hrows : ∀ row, row ∈ df_final spark [r] →
            populacao row = n ∧ row ∈ df_final spark (rows df)).
  { intros row Hrow. split; [|by eapply df_final_elem_of].
    apply elem_of_df_final in Hrow as (row' & Hrow' & ->).
    exact (Hsel row' Hrow'). }
  assert (Hle : (1 ≤ length (df_final spark [r])
       ≤ count_negative_population (df_final spark (rows df)))%nat).
  { split.
    - apply (length_nonempty (df_final spark [r])), distinct_nonempty,
        df_selected_nonempty.
    - unfold count_negative_population.
      apply submseteq_length, NoDup_submseteq; [apply NoDup_distinct|].
      intros row Hrow. apply list_elem_of_filter.
      destruct (Hrows row Hrow). split; [lia | done]. }
  rewrite (transformar_returns _ _ _ Hread Hval Hplan).
  split; [done|]. split; [done|]. split; [done|]. split; [|done].
  unfold emitted. cbn [fst]. apply elem_of_cons. right. apply elem_of_app. right.
  apply elem_of_cons. right. apply elem_of_app. left.
  unfold population_warning.
  rewrite <- invalid_population_count in *.
  destruct (decide _) as [|Heq]; [by apply list_elem_of_singleton|].
  apply dec_stable in Heq. lia.
Qed.

Lemma negative_population_kept_and_counted_witness :
  outcome (transformar_dados_paises (session_of df_negativia) "dados_brutos_paises.json")
  = inr (df_final (session_of df_negativia) [negativia])
  ∧ (∀ row, row ∈ df_selected (session_of df_negativia) [negativia] →
       populacao row = -5)
  ∧ (∀ row, row ∈ df_final (session_of df_negativia) [negativia] →
       populacao row = -5 ∧ row ∈ df_final (session_of df_negativia) [negativia])
  ∧ (WARNING,
     MsgPopulacaoInvalida
       (count_negative_population (df_final (session_of df_negativia) [negativia])))
      ∈ emitted (transformar_dados_paises (session_of df_negativia)
                   "dados_brutos_paises.json")
  ∧ (1 ≤ length (df_final (session_of df_negativia) [negativia])
       ≤ count_negative_population
           (df_final (session_of df_negativia) [negativia]))%nat.
Proof.
  apply (negative_population_kept_and_counted
           (session_of df_negativia) "dados_brutos_paises.json" df_negativia
           negativia (-5)).
  - reflexivity.
  - vm_compute. reflexivity.
  - vm_compute. reflexivity.
  - apply list_elem_of_singleton. reflexivity.
  - reflexivity.
  - unfold int_min. lia.
Defined.

(** C1, the counterexample.  The record [negativia] has population -5, one
    currency and two languages, the two arrays being written as arrays of
    entries.  The schema check warns of the three fields whose class is not
    the declared one; the transform returns two rows, both with population
    -5 and none with 0, and the warning about the population reports 2. *)
Lemma negative_population_not_defaulted :
  transformar_dados_paises (session_of df_negativia) "dados_brutos_paises.json"
  = ([ (INFO, MsgInfo "Iniciando a etapa de transformação.");
       (INFO, MsgInfo "Iniciando validação de schema dos dados brutos.");
       (WARNING, MsgTipoDiferente "currencies" CArrayType CMapType);
       (WARNING, MsgTipoDiferente "languages" CArrayType CMapType);
       (WARNING, MsgTipoDiferente "population" CLongType CIntegerType);
       (INFO, MsgInfo "Validação de schema concluída com sucesso.");
       (INFO, MsgInfo "Aplicando transformações para achatar a estrutura.");
       (WARNING, MsgPopulacaoInvalida 2);
       (INFO, MsgInfo "Transformação concluída.") ],
     inr [ set_populacao (-5) testland_row;
           {| nome_comum := "Testland"; nome_oficial := "Republic of Testland";
              regiao := "TestRegion"; sub_regiao := "TestSub"; capital := "TestCity";
              populacao := -5; area := 50.5; moeda_codigo := "TST";
              moeda_nome := "Test Dollar"; idioma := "English" |} ]).
Proof. vm_compute. reflexivity. Qed.

(** C3.  The outer expansion is not reached on the documents of the
    specification: where [currencies] or [languages] is not read as an
    array (a JSON object is read as a struct, and a column given the
    declared type is a map), the transform raises, either for a required
    field that is absent or at the analysis of the plan, and returns no row
    for any record. *)
Theorem outer_expansion_needs_arrays (spark : SparkSession) (input_path : string)
    (df : DataFrame) :
  read_json spark input_path = inr df →
  array_element (resolve (schema_fields df) "currencies") = None
  ∨ array_element (resolve (schema_fields df) "languages") = None →
  (∀ table, outcome (transformar_dados_paises spark input_path) ≠ inr table)
  ∧ ∃ e, outcome (transformar_dados_paises spark input_path) = inl e
         ∧ last (emitted (transformar_dados_paises spark input_path))
           = Some (ERROR, MsgErroTransformacao (exception_str e))
         ∧ (e = AnalysisException ∨ ∃ field, e = TypeError (MsgCampoAusente field)).
Proof.
  intros Hread Hnot. pose proof (analyze_needs_arrays _ Hnot) as Hplan.
  destruct (transformar_cases spark input_path)
    as [(e & Hread' & E) | [(df' & e & Hread' & Hval & E)
       | [(df' & Hread' & Hval & _ & E) | (df' & Hread' & _ & Hplan' & _)]]];
    try congruence; rewrite E; unfold outcome, emitted; cbn [fst snd];
    (split; [done|]).
  - exists e. split; [done|].
    split; [change (?x :: ?l ++ ?k) with ((x :: l) ++ k); apply last_snoc|].
    right. rewrite outcome_validar_schema_bruto in Hval.
    apply validar_campos_raises in Hval as (f & -> & _). by exists f.
  - exists AnalysisException. split; [done|]. split; [|by left].
    rewrite app_comm_cons. apply last_snoc2.
Qed.

(** The Testland document of the specification: the reader infers two
    struct columns, and the transform raises before it reads a row. *)
Lemma outer_expansion_needs_arrays_witness :
  (∀ table,
     outcome (transformar_dados_paises
                (session_of {| schema_fields := schema_objects; rows := [] |})
                "dados_brutos_paises.json") ≠ inr table)
  ∧ ∃ e, outcome (transformar_dados_paises
                    (session_of {| schema_fields := schema_objects; rows := [] |})
                    "dados_brutos_paises.json") = inl e
         ∧ last (emitted (transformar_dados_paises
                            (session_of {| schema_fields := schema_objects; rows := [] |})
                            "dados_brutos_paises.json"))
           = Some (ERROR, MsgErroTransformacao (exception_str e))
         ∧ (e = AnalysisException ∨ ∃ field, e = TypeError (MsgCampoAusente field)).
Proof.
  apply (outer_expansion_needs_arrays
           (session_of {| schema_fields := schema_objects; rows := [] |})
           "dados_brutos_paises.json"
           {| schema_fields := schema_objects; rows := [] |}).
  - reflexivity.
  - left. vm_compute. reflexivity.
Defined.

Lemma select_row_columns spark r c l c' l' :
  normalize_row (select_row spark {| raw := r; currencies_map := c; languages_map := l |})
  = normalize_row (select_row spark {| raw := r; currencies_map := c'; languages_map := l' |}) →
  currency_columns c = currency_columns c' ∧ language_column l = language_column l'.
Proof.
  intros H. split.
  - unfold currency_columns. f_equal.
    + exact (f_equal moeda_codigo H).
    + exact (f_equal moeda_nome H).
  - exact (f_equal idioma H).
Qed.

(** C4, the counterexample.  Two currencies, and two languages of one name:
    the transform returns two rows, not four. *)
Lemma homonymous_languages_give_two_rows :
  outcome (transformar_dados_paises (session_of df_homonymous)
             "dados_brutos_paises.json")
  = inr [ testland_row;
          {| nome_comum := "Testland"; nome_oficial := "Republic of Testland";
             regiao := "TestRegion"; sub_regiao := "TestSub"; capital := "TestCity";
             populacao := 1000; area := 50.5; moeda_codigo := "EUR";
             moeda_nome := "Euro"; idioma := "Testish" |} ].
Proof. vm_compute. reflexivity. Qed.

(** C4, as the code has it.  With m ≥ 1 elements of [currencies] and n ≥ 1 of
    [languages], the expansion of a record is the product of the two arrays
    and the select gives one row for each pair, m × n rows; [distinct] then
    keeps one row of each group of equal rows.  The table has at most m × n
    rows for the record, and exactly m × n when the currencies differ in
    code or name and the languages differ in name; it is what the transform
    returns for the record alone. *)
Theorem expansion_is_product_up_to_distinct (spark : SparkSession) (r : Raw.Row)
    (cs : list (option (Entry.t Currency.t))) (ls : list (option (Entry.t string))) :
  Raw.currencies r = Some cs →
  Raw.languages r = Some ls →
  cs ≠ [] → ls ≠ [] →
  df_exploded [r]
  = (c ← cs; l ← ls;
     [ {| raw := r; currencies_map := c; languages_map := l |} ])
  ∧ length (df_selected spark [r]) = (length cs * length ls)%nat
  ∧ (length (df_final spark [r]) ≤ length cs * length ls)%nat
  ∧ (NoDup (currency_columns <$> cs) → NoDup (language_column <$> ls) →
       length (df_final spark [r]) = (length cs * length ls)%nat)
  ∧ (∀ row, row ∈ df_final spark [r] ↔
       ∃ c l, c ∈ cs ∧ l ∈ ls
              ∧ row = normalize_row
                        (select_row spark
                           {| raw := r; currencies_map := c; languages_map := l |}))
  ∧ (∀ input_path df,
       read_json spark input_path = inr df →
       outcome (validar_schema_bruto (schema_fields df)) = inr () →
       analyze (schema_fields df) = true →
       rows df = [r] →
       outcome (transformar_dados_paises spark input_path)
       = inr (df_final spark [r])).
Proof.
  intros Hc Hl Hcs Hls.
  assert (E : df_exploded [r]
    = (c ← cs; l ← ls;
       [ {| raw := r; currencies_map := c; languages_map := l |} ])).
  { rewrite df_exploded_singleton. unfold exploded_of.
    by rewrite (explode_outer_elements _ cs Hc Hcs), (explode_outer_elements _ ls Hl Hls). }
  assert (Elen : length (df_selected spark [r]) = (length cs * length ls)%nat).
  { unfold df_selected. rewrite E, length_fmap. apply length_product. }
  split; [done|]. split; [done|]. split; [|split; [|split]].
  - rewrite <- Elen. apply length_distinct.
  - intros Hnc Hnl. rewrite <- Elen. unfold df_final, distinct.
    rewrite dedup_NoDup; [by rewrite length_fmap|].
    unfold df_selected. rewrite E, !fmap_product.
    apply (NoDup_product _ currency_columns language_column); [|done..].
    intros c l c' l'. apply select_row_columns.
  - intros row. rewrite elem_of_df_final. unfold df_selected.
    rewrite E, fmap_product. setoid_rewrite elem_of_product. naive_solver.
  - intros input_path df Hread Hval Hplan Hrows.
    by rewrite (transformar_returns _ _ _ Hread Hval Hplan), Hrows.
Qed.

Lemma expansion_is_product_up_to_distinct_witness :
  length (df_final (session_of df_testland) [tricurrency]) = (3 * 2)%nat.
Proof.
  refine (proj1 (proj2 (proj2 (proj2 (expansion_is_product_up_to_distinct
            (session_of df_testland) tricurrency _ _ eq_refl eq_refl _ _)))) _ _);
    try done; apply (bool_decide_unpack _); vm_compute; exact I.
Defined.

(** C5, the counterexample.  Testland, and a record with no currency and
    two languages of one name: the two rows that the select gives for the
    second record are equal and [distinct] keeps one, so the transform
    returns one row for it, two rows in all. *)
Lemma cashless_homonyms_give_one_row :
  outcome (transformar_dados_paises (session_of (df_cashless "Testish" "Testish"))
             "dados_brutos_paises.json")
  = inr [ testland_row;
          {| nome_comum := "Cashless"; nome_oficial := "Cashless Islands";
             regiao := "TestRegion"; sub_regiao := "TestSub"; capital := "TestCity";
             populacao := 1000; area := 50.5; moeda_codigo := "N/A";
             moeda_nome := "N/A"; idioma := "Testish" |} ].
Proof. vm_compute. reflexivity. Qed.

(** C5, as the code has it.  With an empty array of currencies and two
    languages, the expansion and the select give exactly two rows, both with
    "N/A" for the currency code and name.  The table keeps both when the two
    language names differ and one when they are equal; its rows have "N/A"
    for the currency code and name, and are rows of the table that the
    transform returns. *)
Theorem empty_currencies_two_languages (spark : SparkSession) (r : Raw.Row)
    (l1 l2 : option (Entry.t string)) :
  Raw.currencies r = Some [] →
  Raw.languages r = Some [l1; l2] →
  (∃ row1 row2,
     df_selected spark [r] = [row1; row2]
     ∧ idioma row1 = language_column l1 ∧ idioma row2 = language_column l2
     ∧ moeda_codigo row1 = "N/A" ∧ moeda_nome row1 = "N/A"
     ∧ moeda_codigo row2 = "N/A" ∧ moeda_nome row2 = "N/A")
  ∧ (∀ row, row ∈ df_final spark [r] →
       moeda_codigo row = "N/A" ∧ moeda_nome row = "N/A"
       ∧ (idioma row = language_column l1 ∨ idioma row = language_column l2))
  ∧ (language_column l1 ≠ language_column l2 → length (df_final spark [r]) = 2%nat)
  ∧ (language_column l1 = language_column l2 → length (df_final spark [r]) = 1%nat)
  ∧ (∀ input_path df,
       read_json spark input_path = inr df →
       outcome (validar_schema_bruto (schema_fields df)) = inr () →
       analyze (schema_fields df) = true →
       r ∈ rows df →
       outcome (transformar_dados_paises spark input_path)
       = inr (df_final spark (rows df))
       ∧ ∀ row, row ∈ df_final spark [r] → row ∈ df_final spark (rows df)).
Proof.
  intros Hc Hl.
  assert (E : df_selected spark [r]
    = [ select_row spark {| raw := r; currencies_map := None; languages_map := l1 |};
        select_row spark {| raw := r; currencies_map := None; languages_map := l2 |} ]).
  { rewrite df_selected_singleton, Hc, Hl. reflexivity. }
  split; [|split; [|split; [|split]]].
  - eexists _, _. split; [exact E|]. by repeat split.
  - intros row (row' & Hrow & ->)%elem_of_df_final. rewrite E in Hrow.
    apply elem_of_cons in Hrow as [-> | Hrow]; [by auto|].
    apply list_elem_of_singleton in Hrow as ->. by auto.
  - intros Hne. unfold df_final, distinct. rewrite E. simpl.
    rewrite filter_cons_True, filter_nil; [done|].
    intros Heq. apply Hne. symmetry. exact (f_equal idioma Heq).
  - intros Heq. unfold df_final, distinct. rewrite E. simpl.
    rewrite filter_cons_False, filter_nil; [done|].
    intros Hne. apply Hne. unfold select_row, normalize_row, set_area. simpl.
    unfold language_column in Heq. by rewrite Heq.
  - intros input_path df Hread Hval Hplan Hr.
    rewrite (transformar_returns _ _ _ Hread Hval Hplan). split; [done|].
    intros row. by apply df_final_elem_of.
Qed.

Lemma empty_currencies_two_languages_witness :
  length (df_final (session_of (df_cashless "Testish" "English"))
            [cashless "Testish" "English"]) = 2%nat.
Proof.
  refine (proj1 (proj2 (proj2 (empty_currencies_two_languages
            (session_of (df_cashless "Testish" "English"))
            (cashless "Testish" "English")
            (Some (Entry.mk (Some "aaa") (Some "Testish")))
            (Some (Entry.mk (Some "bbb") (Some "English"))) eq_refl eq_refl))) _).
  done.
Defined.



(** C7, the counterexample.  [population] is read as a struct, each record
    writing it as an object.  The schema check warns and returns; the cast
    of a struct to an integer has no type, so the plan is rejected and the
    transform raises for the whole collection, whatever its rows, instead of
    putting 0 in that field. *)
Lemma population_struct_aborts :
  analyze schema_population_struct = false
  ∧ ∀ rows,
      transformar_dados_paises
        (session_of {| schema_fields := schema_population_struct; rows := rows |})
        "dados_brutos_paises.json"
      = ([ (INFO, MsgInfo "Iniciando a etapa de transformação.");
           (INFO, MsgInfo "Iniciando validação de schema dos dados brutos.");
           (WARNING, MsgTipoDiferente "currencies" CArrayType CMapType);
           (WARNING, MsgTipoDiferente "languages" CArrayType CMapType);
           (WARNING, MsgTipoDiferente "population" CStructType CIntegerType);
           (INFO, MsgInfo "Validação de schema concluída com sucesso.");
           (INFO, MsgInfo "Aplicando transformações para achatar a estrutura.");
           (ERROR, MsgErroTransformacao "AnalysisException") ],
         inl AnalysisException).
Proof. split; [|intros rows]; vm_compute; reflexivity. Qed.

(** C7, as the code has it.  When the cast of the population of an atomic
    cell is null, every row that the record gives has 0 in that column and
    its other columns as the record has them; the rows are those of the same
    record under any other population, with 0 in that one column.  Likewise
    for the area and 0.0.  When the transform returns, the rows of the
    record are rows of the table.  A column that is not atomic cannot be
    cast: the plan is rejected and the transform raises. *)
Theorem cast_failure_degrades_one_field (spark : SparkSession) (r : Raw.Row) :
  (cast_IntegerType spark (Raw.population r) = None →
     (∀ row, row ∈ df_final spark [r] →
        populacao row = 0
        ∧ area row
          = normalize_double (coalesce (cast_DoubleType spark (Raw.area r)) 0%float)
        ∧ text_columns r row)
     ∧ ∀ a, df_selected spark [r]
            = set_populacao 0 <$> df_selected spark [with_population a r])
  ∧ (cast_DoubleType spark (Raw.area r) = None →
       (∀ row, row ∈ df_final spark [r] →
          area row = 0%float
          ∧ populacao row = coalesce (cast_IntegerType spark (Raw.population r)) 0
          ∧ text_columns r row)
       ∧ ∀ a, df_selected spark [r]
              = set_area 0 <$> df_selected spark [with_area a r])
  ∧ (∀ input_path df,
       read_json spark input_path = inr df →
       outcome (validar_schema_bruto (schema_fields df)) = inr () →
       analyze (schema_fields df) = true →
       r ∈ rows df →
       outcome (transformar_dados_paises spark input_path)
       = inr (df_final spark (rows df))
       ∧ (∃ row, row ∈ df_final spark [r])
       ∧ ∀ row, row ∈ df_final spark [r] → row ∈ df_final spark (rows df))
  ∧ (∀ input_path df,
       read_json spark input_path = inr df →
       outcome (validar_schema_bruto (schema_fields df)) = inr () →
       has_type is_castable (resolve (schema_fields df) "population") = false
       ∨ has_type is_castable (resolve (schema_fields df) "area") = false →
       outcome (transformar_dados_paises spark input_path) = inl AnalysisException).
Proof.
  split; [|split; [|split]].
  - intros Hcast. split.
    + intros row (Hp & Ha & Ht)%df_final_columns. rewrite Hcast in Hp. done.
    + intros a. rewrite !df_selected_singleton, fmap_product.
      apply list_bind_ext; [|done]. intros c.
      apply list_bind_ext; [|done]. intros l.
      unfold select_row, set_populacao. simpl. by rewrite Hcast.
  - intros Hcast. split.
    + intros row (Hp & Ha & Ht)%df_final_columns. rewrite Hcast in Ha. done.
    + intros a. rewrite !df_selected_singleton, fmap_product.
      apply list_bind_ext; [|done]. intros c.
      apply list_bind_ext; [|done]. intros l.
      unfold select_row, set_area. simpl. by rewrite Hcast.
  - intros input_path df Hread Hval Hplan Hr.
    rewrite (transformar_returns _ _ _ Hread Hval Hplan). split; [done|].
    split; [apply df_final_nonempty|]. intros row. by apply df_final_elem_of.
  - intros input_path df Hread Hval Hnot.
    by rewrite (transformar_plan_fails _ _ _ Hread Hval (analyze_needs_castable _ Hnot)).
Qed.

Lemma cast_failure_degrades_one_field_witness :
  (∀ row, row ∈ df_final (session_of df_testland) [textual] →
     populacao row = 0
     ∧ area row
       = normalize_double
           (coalesce (cast_DoubleType (session_of df_testland) (Raw.area textual)) 0%float)
     ∧ text_columns textual row)
  ∧ df_selected (session_of df_testland) [textual]
    = set_area 0 <$> df_selected (session_of df_testland) [with_area (ADouble 50.5) textual].
Proof.
  destruct (cast_failure_degrades_one_field (session_of df_testland) textual)
    as (Hp & Ha & _).
  split.
  - exact (proj1 (Hp eq_refl)).
  - exact (proj2 (Ha eq_refl) (ADouble 50.5)).
Defined.

(** The rows of [textual]: 0 and 0.0 in the two numeric columns, the other
    columns as in Testland. *)
Example df_final_textual :
  df_final (session_of df_testland) [textual]
  = [ set_area 0 (set_populacao 0 testland_row) ].
Proof. vm_compute. reflexivity. Qed.

Lemma FlatRow_eq_fields (a b : FlatRow) :
  a = b ↔
  nome_comum a = nome_comum b ∧ nome_oficial a = nome_oficial b
  ∧ regiao a = regiao b ∧ sub_regiao a = sub_regiao b ∧ capital a = capital b
  ∧ populacao a = populacao b ∧ area a = area b
  ∧ moeda_codigo a = moeda_codigo b ∧ moeda_nome a = moeda_nome b
  ∧ idioma a = idioma b.
Proof.
  split; [by intros -> |].
  destruct a, b. simpl. intros (-> & -> & -> & -> & -> & -> & -> & -> & -> & ->).
  reflexivity.
Qed.

(** The rows that [distinct] puts in one group: equal in nine columns, and
    in the area up to the sign of zero. *)
Lemma normalize_row_eq (a b : FlatRow) :
  normalize_row a = normalize_row b ↔
  nome_comum a = nome_comum b ∧ nome_oficial a = nome_oficial b
  ∧ regiao a = regiao b ∧ sub_regiao a = sub_regiao b ∧ capital a = capital b
  ∧ populacao a = populacao b ∧ same_double (area a) (area b)
  ∧ moeda_codigo a = moeda_codigo b ∧ moeda_nome a = moeda_nome b
  ∧ idioma a = idioma b.
Proof.
  rewrite FlatRow_eq_fields, <- normalize_double_eq. reflexivity.
Qed.

(** C8. [distinct] applied to the table that the transform returns gives
    the same table.  The table has no two equal rows, and it holds a row
    for each row of the select and no other: the row of the select with its
    area normalized.  Two rows of the select are one row of the table
    exactly when their ten columns are equal, the two zeros of the area
    counting as equal. *)
Theorem distinct_idempotent (spark : SparkSession) (R : list Raw.Row) :
  distinct (df_final spark R) = df_final spark R
  ∧ (∀ row, row ∈ distinct (df_final spark R) ↔ row ∈ df_final spark R)
  ∧ NoDup (df_final spark R)
  ∧ (∀ row, row ∈ df_final spark R
            ↔ ∃ row', row' ∈ df_selected spark R ∧ row = normalize_row row')
  ∧ (∀ a b : FlatRow,
       normalize_row a = normalize_row b ↔
       nome_comum a = nome_comum b ∧ nome_oficial a = nome_oficial b
       ∧ regiao a = regiao b ∧ sub_regiao a = sub_regiao b ∧ capital a = capital b
       ∧ populacao a = populacao b ∧ same_double (area a) (area b)
       ∧ moeda_codigo a = moeda_codigo b ∧ moeda_nome a = moeda_nome b
       ∧ idioma a = idioma b).
Proof.
  assert (E : distinct (df_final spark R) = df_final spark R)
    by apply distinct_idemp.
  split; [done|]. split; [by rewrite E|].
  split; [apply NoDup_distinct|]. split; [intros; apply elem_of_df_final|].
  apply normalize_row_eq.
Qed.

(** C9.  The Testland document of the specification writes [currencies] and
    [languages] as JSON objects, which the reader, given no schema, reads as
    structs: [explode_outer] has no type on a struct, and the transform
    raises for any rows.  It raises as well when the two columns are maps, as
    [required_fields] declares them: a map explodes into two columns, which
    the one name given to [withColumn] does not fit.  The same record
    written with arrays of entries gives exactly the expected row. *)
Theorem testland_document_is_rejected (rows : list Raw.Row) :
  transformar_dados_paises
    (session_of {| schema_fields := schema_objects; rows := rows |})
    "dados_brutos_paises.json"
  = ([ (INFO, MsgInfo "Iniciando a etapa de transformação.");
       (INFO, MsgInfo "Iniciando validação de schema dos dados brutos.");
       (WARNING, MsgTipoDiferente "currencies" CStructType CMapType);
       (WARNING, MsgTipoDiferente "languages" CStructType CMapType);
       (WARNING, MsgTipoDiferente "population" CLongType CIntegerType);
       (INFO, MsgInfo "Validação de schema concluída com sucesso.");
       (INFO, MsgInfo "Aplicando transformações para achatar a estrutura.");
       (ERROR, MsgErroTransformacao "AnalysisException") ],
     inl AnalysisException)
  ∧ transformar_dados_paises
      (session_of {| schema_fields := schema_paises; rows := rows |})
      "dados_brutos_paises.json"
    = ([ (INFO, MsgInfo "Iniciando a etapa de transformação.");
         (INFO, MsgInfo "Iniciando validação de schema dos dados brutos.");
         (WARNING, MsgTipoDiferente "population" CLongType CIntegerType);
         (INFO, MsgInfo "Validação de schema concluída com sucesso.");
         (INFO, MsgInfo "Aplicando transformações para achatar a estrutura.");
         (ERROR, MsgErroTransformacao "AnalysisException") ],
       inl AnalysisException)
  ∧ outcome (transformar_dados_paises (session_of df_testland)
               "dados_brutos_paises.json")
    = inr [testland_row].
Proof. repeat split; vm_compute; reflexivity. Qed.

(** * Further properties of the transform *)

Lemma emitted_validar_schema_bruto_raised fields e :
  outcome (validar_schema_bruto fields) = inl e →
  emitted (validar_schema_bruto fields)
  = (INFO, MsgInfo "Iniciando validação de schema dos dados brutos.")
      :: emitted (validar_campos required_fields (schema_dict fields)).
Proof.
  rewrite validar_schema_bruto_unfold. unfold outcome, emitted. cbn [fst snd].
  intros ->. by rewrite app_nil_r.
Qed.

Lemma validar_campos_levels items d :
  Forall (λ r, r.1 = WARNING) (emitted (validar_campos items d)).
Proof.
  induction items as [|[field expected] rest IH]; [constructor|].
  destruct (d !! field) as [actual|] eqn:E.
  - rewrite (validar_campos_present _ _ _ _ _ E). unfold emitted at 1. cbn [fst].
    apply Forall_app. split; [|done]. unfold warning_of.
    destruct (isinstance actual (type_of expected)); repeat constructor.
  - rewrite (validar_campos_absent _ _ _ _ E). constructor.
Qed.

Lemma records_at_app lvl (l k : list LogRecord) :
  records_at lvl (l ++ k) = records_at lvl l ++ records_at lvl k.
Proof. apply filter_app. Qed.

Lemma records_at_cons_ne lvl (r : LogRecord) l :
  r.1 ≠ lvl → records_at lvl (r :: l) = records_at lvl l.
Proof. intros. by apply filter_cons_False. Qed.

Lemma records_at_cons_eq lvl (r : LogRecord) l :
  r.1 = lvl → records_at lvl (r :: l) = r :: records_at lvl l.
Proof. intros. by apply filter_cons_True. Qed.

Lemma records_at_other lvl lvl' (l : list LogRecord) :
  lvl' ≠ lvl → Forall (λ r, r.1 = lvl') l → records_at lvl l = [].
Proof.
  intros Hne H. induction H as [|r l Hr _ IH]; [done|].
  rewrite records_at_cons_ne by congruence. exact IH.
Qed.

(** The schema check logs no record at the level ERROR. *)
Lemma validar_schema_bruto_no_error fields :
  records_at ERROR (emitted (validar_schema_bruto fields)) = [].
Proof.
  rewrite validar_schema_bruto_unfold. unfold emitted at 1. cbn [fst].
  rewrite records_at_cons_ne, records_at_app by done.
  rewrite (records_at_other ERROR WARNING) by (done || apply validar_campos_levels).
  by destruct (outcome _).
Qed.

(** X1. When the transform raises, the exception is the one of the reader,
    of the schema check or of the analysis of the plan, unchanged; the log
    ends with the record of that error and holds no other record at the
    level ERROR. *)
Theorem transformar_raise_logged_once (spark : SparkSession) (input_path : string)
    (e : Exception) :
  outcome (transformar_dados_paises spark input_path) = inl e →
  (read_json spark input_path = inl e
   ∨ (∃ df, read_json spark input_path = inr df
            ∧ outcome (validar_schema_bruto (schema_fields df)) = inl e)
   ∨ (∃ df, read_json spark input_path = inr df
            ∧ outcome (validar_schema_bruto (schema_fields df)) = inr ()
            ∧ analyze (schema_fields df) = false
            ∧ e = AnalysisException))
  ∧ last (emitted (transformar_dados_paises spark input_path))
    = Some (ERROR, MsgErroTransformacao (exception_str e))
  ∧ records_at ERROR (emitted (transformar_dados_paises spark input_path))
    = [(ERROR, MsgErroTransformacao (exception_str e))].
Proof.
  destruct (transformar_cases spark input_path)
    as [(e' & Hread & ->) | [(df & e' & Hread & Hval & ->)
       | [(df & Hread & Hval & Hplan & ->) | (df & _ & _ & _ & ->)]]];
    unfold outcome, emitted; cbn [fst snd]; [| | |done].
  - intros [= ->]. split; [by left|]. split; reflexivity.
  - intros [= ->]. split; [right; left; by exists df|]. split.
    + change (?x :: ?l ++ ?k) with ((x :: l) ++ k). apply last_snoc.
    + rewrite records_at_cons_ne, records_at_app by done.
      fold (emitted (validar_schema_bruto (schema_fields df))).
      by rewrite validar_schema_bruto_no_error.
  - intros [= <-]. split; [right; right; by exists df|]. split.
    + rewrite app_comm_cons. apply last_snoc2.
    + rewrite records_at_cons_ne, records_at_app by done.
      fold (emitted (validar_schema_bruto (schema_fields df))).
      by rewrite validar_schema_bruto_no_error.
Qed.

Lemma transformar_raise_logged_once_witness :
  last (emitted (transformar_dados_paises
                   (session_of {| schema_fields := schema_objects; rows := [] |})
                   "dados_brutos_paises.json"))
  = Some (ERROR, MsgErroTransformacao (exception_str AnalysisException)).
Proof.
  refine (proj1 (proj2 (transformar_raise_logged_once
    (session_of {| schema_fields := schema_objects; rows := [] |})
    "dados_brutos_paises.json" AnalysisException _))).
  vm_compute. reflexivity.
Defined.

(** X2. The transform returns a table exactly when the input is read, every
    required field is a field of its schema and the plan is accepted; the
    table is then the deduplicated select of the rows read, and no record at
    the level ERROR is logged. *)
Theorem transformar_returns_iff (spark : SparkSession) (input_path : string) :
  ((∃ table, outcome (transformar_dados_paises spark input_path) = inr table)
   ↔ ∃ df, read_json spark input_path = inr df
           ∧ (∀ field, field ∈ required_fields.*1 →
                       field ∈ (sf_name <$> schema_fields df))
           ∧ analyze (schema_fields df) = true)
  ∧ (∀ table df,
       outcome (transformar_dados_paises spark input_path) = inr table →
       read_json spark input_path = inr df →
       table = df_final spark (rows df)
       ∧ records_at ERROR (emitted (transformar_dados_paises spark input_path)) = []).
Proof.
  split; [split|].
  - intros [table Ht].
    apply transformar_returned in Ht as (df & Hread & Hval & Hplan & _).
    exists df. split; [done|]. split; [|done]. intros f Hf.
    destruct (decide (f ∈ (sf_name <$> schema_fields df))) as [|Hn]; [done|].
    destruct (validar_campos_missing required_fields (schema_dict (schema_fields df)))
      as (g & _ & _ & Hg); [exists f; by rewrite schema_dict_None|].
    rewrite outcome_validar_schema_bruto in Hval. congruence.
  - intros (df & Hread & Hall & Hplan). exists (df_final spark (rows df)).
    rewrite (transformar_returns _ _ df Hread); [done| |done].
    rewrite outcome_validar_schema_bruto.
    apply validar_campos_returns. intros f Hf. by apply schema_dict_is_Some, Hall.
  - intros table df Ht Hread.
    apply transformar_returned in Ht as (df' & Hread' & Hval & Hplan & -> & E).
    assert (df' = df) as -> by congruence. split; [done|]. rewrite E.
    rewrite records_at_cons_ne, records_at_app by done.
    rewrite validar_schema_bruto_no_error. cbn [app].
    rewrite records_at_cons_ne, records_at_app by done.
    unfold population_warning. by destruct (decide _).
Qed.

Lemma validar_campos_app pre rest d :
  (∀ field, field ∈ pre.*1 → is_Some (d !! field)) →
  validar_campos (pre ++ rest) d
  = (emitted (validar_campos pre d) ++ emitted (validar_campos rest d),
     outcome (validar_campos rest d)).
Proof.
  induction pre as [|[field expected] pre IH]; intros Hall.
  - change ([] ++ rest) with rest. unfold emitted, outcome.
    by destruct (validar_campos rest d).
  - destruct (Hall field) as [actual E]; [set_solver|].
    rewrite <- app_comm_cons, !(validar_campos_present _ _ _ _ _ E).
    rewrite IH by (intros; apply Hall; set_solver).
    unfold emitted, outcome. cbn [fst snd]. by rewrite app_assoc.
Qed.

(** X3. The schema check fails fast: it raises for the first required field,
    in the order of [required_fields], that the schema lacks.  The warnings
    logged by then are those of the fields checked before it, the fields
    after it are not looked at, and the closing record is not logged. *)
Theorem validar_schema_bruto_fails_fast (fields : list StructField)
    (pre post : list (string * DataType)) (field : string) (expected : DataType) :
  required_fields = pre ++ (field, expected) :: post →
  (∀ g, g ∈ pre.*1 → g ∈ (sf_name <$> fields)) →
  field ∉ (sf_name <$> fields) →
  validar_schema_bruto fields
  = ((INFO, MsgInfo "Iniciando validação de schema dos dados brutos.")
       :: emitted (validar_campos pre (schema_dict fields)),
     inl (TypeError (MsgCampoAusente field)))
  ∧ (∀ lvl g a e,
       (lvl, MsgTipoDiferente g a e) ∈ emitted (validar_schema_bruto fields) →
       g ∈ pre.*1)
  ∧ (INFO, MsgInfo "Validação de schema concluída com sucesso.")
      ∉ emitted (validar_schema_bruto fields).
Proof.
  intros Hreq Hpre Habs.
  assert (E : validar_schema_bruto fields
    = ((INFO, MsgInfo "Iniciando validação de schema dos dados brutos.")
         :: emitted (validar_campos pre (schema_dict fields)),
       inl (TypeError (MsgCampoAusente field)))).
  { rewrite validar_schema_bruto_unfold, Hreq.
    rewrite validar_campos_app
      by (intros g Hg; by apply schema_dict_is_Some, Hpre).
    rewrite validar_campos_absent by (by apply schema_dict_None).
    unfold emitted at 1 2, outcome. cbn [fst snd]. by rewrite !app_nil_r. }
  split; [done|]. rewrite E. unfold emitted at 1 3. cbn [fst]. split.
  - intros lvl g a e [[=]|H]%elem_of_cons.
    apply validar_campos_warning in H as (x & _ & Hin & _).
    apply list_elem_of_fmap. by exists (g, x).
  - intros [[=]|H]%elem_of_cons.
    pose proof (validar_campos_levels pre (schema_dict fields)) as Hl.
    rewrite Forall_forall in Hl. by apply Hl in H.
Qed.

Lemma validar_schema_bruto_fails_fast_witness :
  validar_schema_bruto (schema_sem_region ++ [("subregion", LongType, true)])
  = ([ (INFO, MsgInfo "Iniciando validação de schema dos dados brutos.");
       (WARNING, MsgTipoDiferente "population" CLongType CIntegerType) ],
     inl (TypeError (MsgCampoAusente "region"))).
Proof.
  refine (proj1 (validar_schema_bruto_fails_fast
    (schema_sem_region ++ [("subregion", LongType, true)])
    (take 6 required_fields) [("subregion", StringType)] "region" StringType
    eq_refl _ _)).
  - apply Forall_forall. apply (bool_decide_unpack _). vm_compute. exact I.
  - apply (bool_decide_unpack _). vm_compute. exact I.
Defined.

Lemma df_selected_Permutation spark (df_raw df_raw' : list Raw.Row) row :
  df_raw ≡ₚ df_raw' → row ∈ df_selected spark df_raw → row ∈ df_selected spark df_raw'.
Proof.
  intros Hp (r & Hr & Hrow)%df_selected_elem_of.
  apply df_selected_elem_of. exists r. split; [|done]. by rewrite <- Hp.
Qed.

(** X4. The order of the records does not matter to the result: a
    permutation of the input gives a permutation of the table, and the same
    count of rows with a negative population. *)
Theorem df_final_Permutation (spark : SparkSession) (df_raw df_raw' : list Raw.Row) :
  df_raw ≡ₚ df_raw' →
  df_final spark df_raw ≡ₚ df_final spark df_raw'
  ∧ length (df_final spark df_raw) = length (df_final spark df_raw')
  ∧ count_negative_population (df_final spark df_raw)
    = count_negative_population (df_final spark df_raw').
Proof.
  intros Hp.
  assert (H : df_final spark df_raw ≡ₚ df_final spark df_raw').
  { apply NoDup_Permutation; [apply NoDup_distinct..|].
    intros row. rewrite !elem_of_df_final.
    split; intros (row' & Hrow & ->); exists row'; (split; [|done]);
      revert Hrow; apply df_selected_Permutation; [done | by symmetry]. }
  split; [done|]. split; [by rewrite H|].
  unfold count_negative_population. by rewrite H.
Qed.

Lemma df_final_Permutation_witness :
  df_final (session_of df_testland) df_two
  ≡ₚ df_final (session_of df_testland) df_two_swapped.
Proof.
  refine (proj1 (df_final_Permutation (session_of df_testland) df_two
                   df_two_swapped _)).
  apply Permutation_swap.
Defined.

Lemma long_to_int_range n : int_min ≤ long_to_int n ≤ int_max.
Proof.
  unfold long_to_int, int_min, int_max.
  pose proof (Z.mod_pos_bound (n + 2 ^ 31) (2 ^ 32)). lia.
Qed.

Lemma double_to_int_range x : int_min ≤ double_to_int x ≤ int_max.
Proof.
  unfold double_to_int, int_min, int_max.
  destruct (Prim2SF x) as [s|[]| |s m e]; lia.
Qed.

(** X7. The population of every row of the table is a 32-bit integer,
    whatever the cell holds, provided the session converts text to 32-bit
    integers only. *)
Theorem populacao_is_int (spark : SparkSession) (df_raw : list Raw.Row) (row : FlatRow) :
  (∀ s n, text_to_int spark s = Some n → int_min ≤ n ≤ int_max) →
  row ∈ df_final spark df_raw →
  int_min ≤ populacao row ≤ int_max.
Proof.
  intros Htext (row' & (r & _ & Hrow)%df_selected_elem_of & ->)%elem_of_df_final.
  rewrite df_selected_singleton in Hrow.
  apply elem_of_product in Hrow as (c & l & _ & _ & ->).
  unfold normalize_row, set_area, select_row. cbn [populacao raw].
  destruct (Raw.population r) as [|b|n|x|s]; cbn [cast_IntegerType coalesce default].
  - unfold int_min, int_max. lia.
  - unfold int_min, int_max. destruct b; cbn; lia.
  - apply long_to_int_range.
  - apply double_to_int_range.
  - destruct (text_to_int spark s) as [n|] eqn:E; cbn [default].
    + by apply (Htext s).
    + unfold int_min, int_max. lia.
Qed.

Lemma session_of_text_to_int df s n :
  text_to_int (session_of df) s = Some n → int_min ≤ n ≤ int_max.
Proof.
  cbn [text_to_int session_of]. destruct (decimal_integer s) as [m|]; [|done].
  cbn. case_bool_decide; [|done]. by intros [= <-].
Qed.

Lemma populacao_is_int_witness :
  int_min ≤ populacao (set_populacao (-5) testland_row) ≤ int_max.
Proof.
  apply (populacao_is_int (session_of df_negativia) [negativia]).
  - apply session_of_text_to_int.
  - apply (bool_decide_unpack _). vm_compute. exact I.
Defined.

Lemma validar_schema_bruto_no_population_warning fields lvl n :
  (lvl, MsgPopulacaoInvalida n) ∉ emitted (validar_schema_bruto fields).
Proof.
  rewrite validar_schema_bruto_unfold. unfold emitted at 1. cbn [fst].
  intros [[=]|[H|H]%elem_of_app]%elem_of_cons.
  - apply validar_campos_messages in H as (? & ? & ? & [=]).
  - destruct (outcome _); [by apply elem_of_nil in H|].
    by apply list_elem_of_singleton in H.
Qed.

Lemma count_negative_population_pos (df : list FlatRow) :
  (0 < count_negative_population df)%nat ↔ ∃ row, row ∈ df ∧ populacao row < 0.
Proof.
  unfold count_negative_population. split.
  - destruct (filter _ df) as [|row l] eqn:E; [simpl; lia|]. intros _.
    assert (H : row ∈ filter (λ row, populacao row < 0) df)
      by (rewrite E; apply elem_of_cons; by left).
    apply list_elem_of_filter in H as [? ?]. by exists row.
  - intros (row & Hin & Hneg).
    assert (H : row ∈ filter (λ row, populacao row < 0) df)
      by (by apply list_elem_of_filter).
    destruct (filter _ df); [by apply elem_of_nil in H | simpl; lia].
Qed.

(** X8. When the transform returns, a record about the population is in
    its log exactly when some row of the table it returns has a negative
    population; it is at the level WARNING and carries the number of such
    rows. *)
Theorem population_warning_iff_negative (spark : SparkSession) (input_path : string)
    (table : list FlatRow) (lvl : Level) (n : nat) :
  outcome (transformar_dados_paises spark input_path) = inr table →
  (lvl, MsgPopulacaoInvalida n) ∈ emitted (transformar_dados_paises spark input_path)
  ↔ lvl = WARNING
    ∧ n = count_negative_population table
    ∧ ∃ row, row ∈ table ∧ populacao row < 0.
Proof.
  intros (df & _ & _ & _ & -> & E)%transformar_returned. rewrite E.
  rewrite <- count_negative_population_pos.
  pose proof (invalid_population_count (df_final spark (rows df))) as Hc.
  pose proof (length_filter (λ row, 0 ≤ populacao row) (df_final spark (rows df))) as Hle.
  fold (count_valid_population (df_final spark (rows df))) in Hle.
  unfold population_warning. split.
  - intros [[=]|[H|[[=]|[H|H]%elem_of_app]%elem_of_cons]%elem_of_app]%elem_of_cons.
    + by apply validar_schema_bruto_no_population_warning in H.
    + destruct (decide _) as [Hne|]; [|by apply elem_of_nil in H].
      apply list_elem_of_singleton in H as [= -> ->]. repeat split; lia.
    + by apply list_elem_of_singleton in H.
  - intros (-> & -> & Hpos). apply elem_of_cons. right. apply elem_of_app. right.
    apply elem_of_cons. right. apply elem_of_app. left.
    destruct (decide _) as [|Heq]; [rewrite Hc; by apply list_elem_of_singleton|].
    apply dec_stable in Heq. lia.
Qed.

Lemma population_warning_iff_negative_witness :
  (WARNING, MsgPopulacaoInvalida 2)
    ∈ emitted (transformar_dados_paises (session_of df_negativia)
                 "dados_brutos_paises.json")
  ↔ WARNING = WARNING
    ∧ 2%nat = count_negative_population (df_final (session_of df_negativia) [negativia])
    ∧ ∃ row, row ∈ df_final (session_of df_negativia) [negativia] ∧ populacao row < 0.
Proof.
  apply (population_warning_iff_negative (session_of df_negativia)
           "dados_brutos_paises.json"
           (df_final (session_of df_negativia) [negativia]) WARNING 2).
  vm_compute. reflexivity.
Defined.

(** X18. Over arrays the expansion is outer.  When the transform returns,
    every record read gives at least one row of the table; a record whose
    [currencies] is null or empty gives rows with "N/A" for the currency code
    and name, and one whose [languages] is null or empty gives rows with
    "N/A" for the language. *)
Theorem array_expansion_is_outer (spark : SparkSession) (input_path : string)
    (df : DataFrame) (table : list FlatRow) (r : Raw.Row) :
  read_json spark input_path = inr df →
  outcome (transformar_dados_paises spark input_path) = inr table →
  r ∈ rows df →
  (∃ row, row ∈ df_final spark [r])
  ∧ (∀ row, row ∈ df_final spark [r] → row ∈ table ∧ text_columns r row)
  ∧ (Raw.currencies r = None ∨ Raw.currencies r = Some [] →
       ∀ row, row ∈ df_final spark [r] →
         moeda_codigo row = "N/A" ∧ moeda_nome row = "N/A")
  ∧ (Raw.languages r = None ∨ Raw.languages r = Some [] →
       ∀ row, row ∈ df_final spark [r] → idioma row = "N/A").
Proof.
  intros Hread (df' & Hread' & _ & _ & -> & _)%transformar_returned Hr.
  assert (df' = df) as -> by congruence.
  split; [apply df_final_nonempty|]. split; [|split].
  - intros row Hrow. split; [by eapply df_final_elem_of|].
    by apply df_final_columns in Hrow as (_ & _ & ?).
  - intros H%explode_outer_synthetic row
      (_ & _ & _ & _ & _ & _ & _ & c & l & Hc & _ & Hcols & _)%df_final_columns.
    rewrite H in Hc. apply list_elem_of_singleton in Hc as ->.
    by injection Hcols as -> ->.
  - intros H%explode_outer_synthetic row
      (_ & _ & _ & _ & _ & _ & _ & c & l & _ & Hl & _ & ->)%df_final_columns.
    rewrite H in Hl. by apply list_elem_of_singleton in Hl as ->.
Qed.

Lemma array_expansion_is_outer_witness :
  (∃ row, row ∈ df_final (session_of df_sparse) [sparse])
  ∧ (∀ row, row ∈ df_final (session_of df_sparse) [sparse] →
       row ∈ df_final (session_of df_sparse) [testland; sparse]
       ∧ text_columns sparse row)
  ∧ (Raw.currencies sparse = None ∨ Raw.currencies sparse = Some [] →
       ∀ row, row ∈ df_final (session_of df_sparse) [sparse] →
         moeda_codigo row = "N/A" ∧ moeda_nome row = "N/A")
  ∧ (Raw.languages sparse = None ∨ Raw.languages sparse = Some [] →
       ∀ row, row ∈ df_final (session_of df_sparse) [sparse] → idioma row = "N/A").
Proof.
  apply (array_expansion_is_outer (session_of df_sparse) "dados_brutos_paises.json"
           df_sparse (df_final (session_of df_sparse) [testland; sparse]) sparse).
  - reflexivity.
  - vm_compute. reflexivity.
  - apply elem_of_cons. right. apply list_elem_of_singleton. reflexivity.
Defined.

(** * The driver *)

Lemma extrair_handler_reraises e : (extrair_handler e).2 = Raised e.
Proof. destruct e as [| cls ? | |]; try reflexivity. by destruct cls. Qed.

Lemma extrair_handler_events e :
  (extrair_handler e).1
  = Logged L_ERROR <$>
      match e with
      | HTTPError _ status_code text => [DErroHTTP status_code text]
      | RequestsError cls msg =>
          [ if is_ConnectionError cls then DErroConexao msg
            else if is_Timeout cls then DErroTimeout
            else DErroRequisicao msg ]
      | _ => []
      end.
Proof. destruct e as [| cls ? | |]; try reflexivity. by destruct cls. Qed.

Lemma raise_for_status_cases (response : Response) :
  (400 ≤ status_code response < 600
   ∧ ∃ msg, raise_for_status response
            = ([], Raised (HTTPError msg (status_code response) (text response))))
  ∨ (¬ 400 ≤ status_code response < 600
     ∧ raise_for_status response = ([], Returned ())).
Proof.
  unfold raise_for_status. repeat case_bool_decide.
  - left. split; [lia|]. eauto.
  - left. split; [lia|]. eauto.
  - right. split; [lia|]. reflexivity.
Qed.

(** The five ways [extrair_dados_api] ends. *)
Lemma extrair_cases w url output_path :
  (∃ e, requests_get w url 30 = inl e
        ∧ extrair_dados_api w url output_path
          = ([Logged L_INFO (DInicioExtracao url); HttpGet url 30]
               ++ (extrair_handler e).1, Raised e))
  ∨ (∃ r msg, requests_get w url 30 = inr r
        ∧ 400 ≤ status_code r < 600
        ∧ extrair_dados_api w url output_path
          = ([Logged L_INFO (DInicioExtracao url); HttpGet url 30;
              Logged L_ERROR (DErroHTTP (status_code r) (text r))],
             Raised (HTTPError msg (status_code r) (text r))))
  ∨ (∃ r e, requests_get w url 30 = inr r
        ∧ ¬ 400 ≤ status_code r < 600
        ∧ json r = inl e
        ∧ extrair_dados_api w url output_path
          = ([Logged L_INFO (DInicioExtracao url); HttpGet url 30]
               ++ (extrair_handler e).1, Raised e))
  ∨ (∃ r dados e, requests_get w url 30 = inr r
        ∧ ¬ 400 ≤ status_code r < 600
        ∧ json r = inr dados
        ∧ json_dump w output_path dados = Some e
        ∧ extrair_dados_api w url output_path
          = ([Logged L_INFO (DInicioExtracao url); HttpGet url 30;
              JsonDump output_path dados]
               ++ (extrair_handler e).1, Raised e))
  ∨ (∃ r dados, requests_get w url 30 = inr r
        ∧ ¬ 400 ≤ status_code r < 600
        ∧ json r = inr dados
        ∧ json_dump w output_path dados = None
        ∧ extrair_dados_api w url output_path
          = ([Logged L_INFO (DInicioExtracao url); HttpGet url 30;
              JsonDump output_path dados;
              Logged L_INFO (DBrutosSalvos output_path)], Returned ())).
Proof.
  unfold extrair_dados_api.
  destruct (requests_get w url 30) as [e|r] eqn:Hget.
  { left. exists e. split; [done|].
    unfold proc_except. cbn -[extrair_handler].
    by rewrite extrair_handler_reraises. }
  right.
  destruct (raise_for_status_cases r) as [[Hs [msg Hr]] | [Hs Hr]].
  { left. exists r, msg. split; [done|]. split; [done|].
    unfold proc_except. cbn -[extrair_handler raise_for_status]. rewrite Hr.
    reflexivity. }
  right.
  destruct (json r) as [e|dados] eqn:Hjson.
  { left. exists r, e. do 3 (split; [done|]).
    unfold proc_except. cbn -[extrair_handler raise_for_status]. rewrite Hr, Hjson.
    cbn -[extrair_handler]. by rewrite extrair_handler_reraises. }
  right.
  destruct (json_dump w output_path dados) as [e|] eqn:Hdump.
  { left. exists r, dados, e. do 4 (split; [done|]).
    unfold proc_except. cbn -[extrair_handler raise_for_status]. rewrite Hr, Hjson.
    cbn -[extrair_handler]. rewrite Hdump.
    cbn -[extrair_handler]. by rewrite extrair_handler_reraises. }
  right. exists r, dados. do 4 (split; [done|]).
  unfold proc_except. cbn -[extrair_handler raise_for_status]. rewrite Hr, Hjson.
  cbn. rewrite Hdump. reflexivity.
Qed.

Lemma calls_app evs1 evs2 : calls (evs1 ++ evs2) = calls evs1 ++ calls evs2.
Proof. apply filter_app. Qed.

Lemma logged_at_app lvl evs1 evs2 :
  logged_at lvl (evs1 ++ evs2) = logged_at lvl evs1 ++ logged_at lvl evs2.
Proof. apply omap_app. Qed.

Lemma extrair_handler_kinds e : Forall extraction_event (extrair_handler e).1.
Proof.
  rewrite extrair_handler_events.
  destruct e; repeat constructor.
Qed.

Lemma extrair_events_kinds w url output_path :
  Forall extraction_event (extrair_dados_api w url output_path).1.
Proof.
  destruct (extrair_cases w url output_path)
    as [(e & _ & ->) | [(r & msg & _ & _ & ->) | [(r & e & _ & _ & _ & ->)
       | [(r & dados & e & _ & _ & _ & _ & ->) | (r & dados & _ & _ & _ & _ & ->)]]]];
    cbn [fst]; rewrite ?Forall_app; repeat split;
    try apply extrair_handler_kinds; repeat constructor.
Qed.

Lemma extraction_events_calls evs :
  Forall extraction_event evs →
  (BuildSession ∉ evs) ∧ (SparkStop ∉ evs) ∧ (PrintSchema ∉ evs)
  ∧ (∀ n, Show n ∉ evs) ∧ (∀ p t, WriteParquet p t ∉ evs)
  ∧ logged_at L_CRITICAL evs = [].
Proof.
  intros H. rewrite Forall_forall in H.
  repeat split; try (intros; intros Hin; by apply H in Hin); try (intros Hin; by apply H in Hin).
  rewrite <- Forall_forall in H. induction H as [|ev evs Hev _ IH]; [done|].
  destruct ev as [[] m| | | | | | |]; try done; simpl in *; exact IH.
Qed.

Lemma of_Run_kinds {A} (m : Run A) : Forall transform_event (of_Run m).1.
Proof.
  destruct m as [l o]. unfold of_Run. cbn [fst].
  induction l as [|[lvl msg] l IH]; [constructor|].
  rewrite fmap_cons. constructor; [by destruct lvl | exact IH].
Qed.

Lemma transform_events_calls evs :
  Forall transform_event evs →
  calls evs = [] ∧ logged_at L_CRITICAL evs = []
  ∧ (∀ ev, ev ∈ evs → is_call ev = false).
Proof.
  intros H. split; [|split].
  - induction H as [|ev evs Hev _ IH]; [done|].
    destruct ev as [lvl m| | | | | | |];
      first [done | unfold calls; rewrite filter_cons_False by done; exact IH].
  - induction H as [|ev evs Hev _ IH]; [done|].
    destruct ev as [[] m| | | | | | |]; try done; simpl in *; exact IH.
  - rewrite Forall_forall in H. intros ev Hin. apply H in Hin.
    by destruct ev.
Qed.

Lemma extrair_never_exits w url output_path code :
  (extrair_dados_api w url output_path).2 ≠ Exited code.
Proof.
  destruct (extrair_cases w url output_path)
    as [(e & _ & ->) | [(r & msg & _ & _ & ->) | [(r & e & _ & _ & _ & ->)
       | [(r & dados & e & _ & _ & _ & _ & ->) | (r & dados & _ & _ & _ & _ & ->)]]]];
    done.
Qed.

(** The three ways the [try] block of [main] ends once [spark] is set. *)
Lemma main_with_spark_cases w spark :
  (∃ exc,
     outcome (transformar_dados_paises spark (raw_data_path CONFIG)) = inl exc
     ∧ main_with_spark w spark
       = ((of_Run (transformar_dados_paises spark (raw_data_path CONFIG))).1,
          Raised (TransformError exc)))
  ∨ (∃ table,
       outcome (transformar_dados_paises spark (raw_data_path CONFIG)) = inr table
       ∧ ((∃ e, write_parquet w table (processed_data_path CONFIG) = Some e
             ∧ main_with_spark w spark
               = ((of_Run (transformar_dados_paises spark (raw_data_path CONFIG))).1
                    ++ [Logged L_INFO DSchemaFinal; PrintSchema;
                        Logged L_INFO DAmostra; Show 10;
                        Logged L_INFO (DInicioParquet (processed_data_path CONFIG));
                        WriteParquet (processed_data_path CONFIG) table;
                        Logged L_ERROR (DParquetFalha (failure_str e))],
                  Raised e))
          ∨ (write_parquet w table (processed_data_path CONFIG) = None
             ∧ main_with_spark w spark
               = ((of_Run (transformar_dados_paises spark (raw_data_path CONFIG))).1
                    ++ [Logged L_INFO DSchemaFinal; PrintSchema;
                        Logged L_INFO DAmostra; Show 10;
                        Logged L_INFO (DInicioParquet (processed_data_path CONFIG));
                        WriteParquet (processed_data_path CONFIG) table;
                        Logged L_INFO DParquetOk;
                        Logged L_INFO DPipelineOk],
                  Returned ())))).
Proof.
  unfold main_with_spark, carregar_dados_parquet, outcome.
  cbn [processed_data_path raw_data_path CONFIG].
  destruct (transformar_dados_paises spark _) as [tl [exc|table]].
  { left. exists exc. split; [done|]. reflexivity. }
  right. exists table. split; [done|].
  destruct (write_parquet w table _) as [e|] eqn:Hw.
  - left. exists e. split; [done|]. cbn. rewrite Hw. reflexivity.
  - right. split; [done|]. cbn. rewrite Hw. reflexivity.
Qed.

(** The five ways [main] ends, by the stage that fails. *)
Lemma main_cases w :
  (∃ e, (extrair_dados_api w (api_url CONFIG) (raw_data_path CONFIG)).2 = Raised e
     ∧ main w
       = (Logged L_INFO DInicioPipeline
            :: (extrair_dados_api w (api_url CONFIG) (raw_data_path CONFIG)).1
            ++ [Logged L_CRITICAL (DPipelineFalha (failure_str e))],
          Exited 1))
  ∨ ((extrair_dados_api w (api_url CONFIG) (raw_data_path CONFIG)).2 = Returned ()
     ∧ ((∃ e, getOrCreate w = inl e
           ∧ main w
             = (Logged L_INFO DInicioPipeline
                  :: (extrair_dados_api w (api_url CONFIG) (raw_data_path CONFIG)).1
                  ++ [BuildSession; Logged L_CRITICAL (DSparkFalha (failure_str e))],
                Exited 1))
        ∨ (∃ spark, getOrCreate w = inr spark
           ∧ ((∃ exc,
                 outcome (transformar_dados_paises spark (raw_data_path CONFIG)) = inl exc
                 ∧ main w
                   = (Logged L_INFO DInicioPipeline
                        :: (extrair_dados_api w (api_url CONFIG) (raw_data_path CONFIG)).1
                        ++ [BuildSession; Logged L_INFO DSparkOk]
                        ++ (of_Run (transformar_dados_paises spark (raw_data_path CONFIG))).1
                        ++ [Logged L_CRITICAL (DPipelineFalha (exception_str exc));
                            SparkStop; Logged L_INFO DSparkFinalizada],
                      Exited 1))
              ∨ (∃ table,
                   outcome (transformar_dados_paises spark (raw_data_path CONFIG))
                   = inr table
                   ∧ ((∃ e, write_parquet w table (processed_data_path CONFIG) = Some e
                         ∧ main w
                           = (Logged L_INFO DInicioPipeline
                                :: (extrair_dados_api w (api_url CONFIG) (raw_data_path CONFIG)).1
                                ++ [BuildSession; Logged L_INFO DSparkOk]
                                ++ (of_Run (transformar_dados_paises spark (raw_data_path CONFIG))).1
                                ++ [Logged L_INFO DSchemaFinal; PrintSchema;
                                    Logged L_INFO DAmostra; Show 10;
                                    Logged L_INFO (DInicioParquet (processed_data_path CONFIG));
                                    WriteParquet (processed_data_path CONFIG) table;
                                    Logged L_ERROR (DParquetFalha (failure_str e));
                                    Logged L_CRITICAL (DPipelineFalha (failure_str e));
                                    SparkStop; Logged L_INFO DSparkFinalizada],
                              Exited 1))
                      ∨ (write_parquet w table (processed_data_path CONFIG) = None
                         ∧ main w
                           = (Logged L_INFO DInicioPipeline
                                :: (extrair_dados_api w (api_url CONFIG) (raw_data_path CONFIG)).1
                                ++ [BuildSession; Logged L_INFO DSparkOk]
                                ++ (of_Run (transformar_dados_paises spark (raw_data_path CONFIG))).1
                                ++ [Logged L_INFO DSchemaFinal; PrintSchema;
                                    Logged L_INFO DAmostra; Show 10;
                                    Logged L_INFO (DInicioParquet (processed_data_path CONFIG));
                                    WriteParquet (processed_data_path CONFIG) table;
                                    Logged L_INFO DParquetOk;
                                    Logged L_INFO DPipelineOk;
                                    SparkStop; Logged L_INFO DSparkFinalizada],
                              Returned ())))))))).
Proof.
  pose proof (extrair_never_exits w (api_url CONFIG) (raw_data_path CONFIG)) as Hex.
  unfold main, main_try.
  destruct (extrair_dados_api w (api_url CONFIG) (raw_data_path CONFIG))
    as [ev [[]|e|code]]; cbn [fst snd] in *.
  2:{ left. exists e. split; [done|]. cbn. by rewrite app_nil_r. }
  2:{ by destruct (Hex code). }
  right. split; [done|]. unfold inicializar_spark.
  destruct (getOrCreate w) as [e|spark].
  { left. exists e. split; [done|]. cbn. by rewrite app_nil_r. }
  right. exists spark. split; [done|].
  cbn -[main_with_spark of_Run transformar_dados_paises].
  pose proof (main_with_spark_cases w spark) as Hc.
  cbn [raw_data_path processed_data_path CONFIG] in Hc |- *.
  destruct Hc as [(exc & Ht & ->) | (table & Ht & [(e & Hw & ->) | (Hw & ->)])];
    generalize ((of_Run (transformar_dados_paises spark "dados_brutos_paises.json")).1);
    intros tl.
  - left. exists exc. split; [done|]. cbn. rewrite ?app_nil_r.
    repeat (rewrite <- app_assoc || rewrite <- app_comm_cons). reflexivity.
  - right. exists table. split; [done|]. left. exists e. split; [done|].
    cbn. rewrite ?app_nil_r. repeat (rewrite <- app_assoc || rewrite <- app_comm_cons). reflexivity.
  - right. exists table. split; [done|]. right. split; [done|].
    cbn. rewrite ?app_nil_r. repeat (rewrite <- app_assoc || rewrite <- app_comm_cons). reflexivity.
Qed.

(** X9. [extrair_dados_api] returns exactly when the request is answered
    with a status outside 400-599, the body decodes and the raw file is
    written; what it does is then: log the start, one request with a timeout
    of 30, one dump of the decoded document at the output path, log the
    success. *)
Theorem extrair_dados_api_returns_iff (w : World) (url output_path : string) :
  (extrair_dados_api w url output_path).2 = Returned ()
  ↔ ∃ r dados,
      requests_get w url 30 = inr r
      ∧ ¬ 400 ≤ status_code r < 600
      ∧ json r = inr dados
      ∧ json_dump w output_path dados = None
      ∧ (extrair_dados_api w url output_path).1
        = [ Logged L_INFO (DInicioExtracao url); HttpGet url 30;
            JsonDump output_path dados;
            Logged L_INFO (DBrutosSalvos output_path) ].
Proof.
  destruct (extrair_cases w url output_path)
    as [(e & Hg & E) | [(r & msg & Hg & Hs & E) | [(r & e & Hg & Hs & Hj & E)
       | [(r & dados & e & Hg & Hs & Hj & Hd & E) | (r & dados & Hg & Hs & Hj & Hd & E)]]]];
    rewrite E; cbn [fst snd]; split; try done;
    try (intros (r' & d' & Hg' & Hs' & Hj' & Hd' & _);
         rewrite Hg in Hg'; try discriminate; injection Hg' as <-;
         try (exfalso; lia);
         rewrite Hj in Hj'; try discriminate; injection Hj' as <-; congruence).
  intros _. by exists r, dados.
Qed.

(** X10. A status from 400 to 599 makes [extrair_dados_api] raise an
    [HTTPError]: one ERROR record with the status and the body of the
    response is logged, and the raw file is not written. *)
Theorem extrair_dados_api_http_status (w : World) (url output_path : string)
    (r : Response) :
  requests_get w url 30 = inr r →
  400 ≤ status_code r < 600 →
  ∃ msg,
    extrair_dados_api w url output_path
    = ([ Logged L_INFO (DInicioExtracao url); HttpGet url 30;
         Logged L_ERROR (DErroHTTP (status_code r) (text r)) ],
       Raised (HTTPError msg (status_code r) (text r))).
Proof.
  intros Hg Hs.
  destruct (extrair_cases w url output_path)
    as [(e & Hg' & E) | [(r' & msg & Hg' & Hs' & E) | [(r' & e & Hg' & Hs' & Hj & E)
       | [(r' & dados & e & Hg' & Hs' & Hj & Hd & E) | (r' & dados & Hg' & Hs' & Hj & Hd & E)]]]];
    try congruence.
  assert (r' = r) as -> by congruence. by exists msg.
Qed.

Lemma extrair_dados_api_http_status_witness :
  ∃ msg,
    extrair_dados_api (world_of (inr response_404) df_testland None)
      (api_url CONFIG) (raw_data_path CONFIG)
    = ([ Logged L_INFO (DInicioExtracao (api_url CONFIG));
         HttpGet (api_url CONFIG) 30;
         Logged L_ERROR (DErroHTTP 404 "{}") ],
       Raised (HTTPError msg 404 "{}")).
Proof.
  apply (extrair_dados_api_http_status (world_of (inr response_404) df_testland None)
           (api_url CONFIG) (raw_data_path CONFIG) response_404).
  - reflexivity.
  - cbn. lia.
Defined.

Lemma logged_at_handler lvl e :
  logged_at lvl (extrair_handler e).1
  = if decide (L_ERROR = lvl) then
      match e with
      | HTTPError _ status_code text => [DErroHTTP status_code text]
      | RequestsError cls msg =>
          [ if is_ConnectionError cls then DErroConexao msg
            else if is_Timeout cls then DErroTimeout
            else DErroRequisicao msg ]
      | _ => []
      end
    else [].
Proof.
  rewrite extrair_handler_events.
  destruct e; cbn; destruct (decide (L_ERROR = lvl)); reflexivity.
Qed.

(** X11. [extrair_dados_api] never exits the process.  Whatever makes it
    fail (the request, the decoding of the body, the writing of the file),
    it raises the exception of that failure, unchanged; a status from 400 to
    599 is the fourth cause, and whenever it raises the exception is that of
    one of the four.  An exception of requests is logged by exactly one
    ERROR record, chosen by its class; any other exception is logged by
    none, and no record is at the level CRITICAL. *)
Theorem extrair_dados_api_failure_logged (w : World) (url output_path : string) :
  (∀ code, (extrair_dados_api w url output_path).2 ≠ Exited code)
  ∧ (∀ e,
       requests_get w url 30 = inl e
       ∨ (∃ r, requests_get w url 30 = inr r
               ∧ ¬ 400 ≤ status_code r < 600 ∧ json r = inl e)
       ∨ (∃ r dados, requests_get w url 30 = inr r
               ∧ ¬ 400 ≤ status_code r < 600 ∧ json r = inr dados
               ∧ json_dump w output_path dados = Some e) →
       (extrair_dados_api w url output_path).2 = Raised e)
  ∧ (∀ e, (extrair_dados_api w url output_path).2 = Raised e →
       (requests_get w url 30 = inl e
        ∨ (∃ r msg, requests_get w url 30 = inr r
                ∧ 400 ≤ status_code r < 600
                ∧ e = HTTPError msg (status_code r) (text r))
        ∨ (∃ r, requests_get w url 30 = inr r
                ∧ ¬ 400 ≤ status_code r < 600 ∧ json r = inl e)
        ∨ (∃ r dados, requests_get w url 30 = inr r
                ∧ ¬ 400 ≤ status_code r < 600 ∧ json r = inr dados
                ∧ json_dump w output_path dados = Some e))
       ∧ logged_at L_ERROR (extrair_dados_api w url output_path).1
         = match e with
           | HTTPError _ status_code text => [DErroHTTP status_code text]
           | RequestsError cls msg =>
               [ if is_ConnectionError cls then DErroConexao msg
                 else if is_Timeout cls then DErroTimeout
                 else DErroRequisicao msg ]
           | _ => []
           end)
  ∧ logged_at L_CRITICAL (extrair_dados_api w url output_path).1 = [].
Proof.
  split; [apply extrair_never_exits|]. split; [|split].
  - intros e' Hcause.
    destruct (extrair_cases w url output_path)
      as [(e & Hg & E) | [(r & msg & Hg & Hs & E) | [(r & e & Hg & Hs & Hj & E)
         | [(r & dados & e & Hg & Hs & Hj & Hd & E) | (r & dados & Hg & Hs & Hj & Hd & E)]]]];
      rewrite E; cbn [snd];
      destruct Hcause as [Hg' | [(r' & Hg' & Hs' & Hj') | (r' & d' & Hg' & Hs' & Hj' & Hd')]];
      rewrite Hg in Hg'; try discriminate; injection Hg' as <-; try done;
      try (rewrite Hj in Hj'; try discriminate; injection Hj' as <-); try done;
      congruence.
  - intros e'.
    destruct (extrair_cases w url output_path)
      as [(e & Hg & E) | [(r & msg & Hg & Hs & E) | [(r & e & Hg & Hs & Hj & E)
         | [(r & dados & e & Hg & Hs & Hj & Hd & E) | (r & dados & Hg & Hs & Hj & Hd & E)]]]];
      rewrite E; cbn [fst snd]; intros [= <-].
    + split; [by left|]. by rewrite logged_at_app, logged_at_handler.
    + split; [right; left; by exists r, msg | reflexivity].
    + split; [right; right; left; by exists r|].
      by rewrite logged_at_app, logged_at_handler.
    + split; [do 3 right; by exists r, dados|].
      by rewrite logged_at_app, logged_at_handler.
  - apply extraction_events_calls, extrair_events_kinds.
Qed.

(** X12. A timeout is reported by its own record, except a connect timeout:
    [ConnectTimeout] derives from [ConnectionError] too, whose clause comes
    first, so it is reported as a connection error. *)
Theorem extrair_dados_api_timeout (w : World) (url output_path : string)
    (cls : RequestsClass) (msg : string) :
  requests_get w url 30 = inl (RequestsError cls msg) →
  is_Timeout cls = true →
  extrair_dados_api w url output_path
  = ([ Logged L_INFO (DInicioExtracao url); HttpGet url 30;
       Logged L_ERROR (if decide (cls = ConnectTimeout) then DErroConexao msg
                       else DErroTimeout) ],
     Raised (RequestsError cls msg)).
Proof.
  intros Hg Hcls.
  destruct (extrair_cases w url output_path)
    as [(e & Hg' & E) | [(r & ? & Hg' & _) | [(r & ? & Hg' & _)
       | [(r & ? & ? & Hg' & _) | (r & ? & Hg' & _)]]]];
    try congruence.
  rewrite E. assert (e = RequestsError cls msg) as -> by congruence.
  by destruct cls.
Qed.

Lemma extrair_dados_api_timeout_witness :
  extrair_dados_api
    (world_of (inl (RequestsError ConnectTimeout "timed out")) df_testland None)
    (api_url CONFIG) (raw_data_path CONFIG)
  = ([ Logged L_INFO (DInicioExtracao (api_url CONFIG));
       HttpGet (api_url CONFIG) 30;
       Logged L_ERROR (DErroConexao "timed out") ],
     Raised (RequestsError ConnectTimeout "timed out")).
Proof.
  apply (extrair_dados_api_timeout
           (world_of (inl (RequestsError ConnectTimeout "timed out")) df_testland None)
           (api_url CONFIG) (raw_data_path CONFIG) ConnectTimeout "timed out");
    reflexivity.
Defined.

Lemma calls_handler e : calls (extrair_handler e).1 = [].
Proof. rewrite extrair_handler_events. by destruct e. Qed.

(** X13. [extrair_dados_api] makes one request, and writes the raw file at
    most once, after it: only at the output path, and only the document that
    a response with a status outside 400-599 decodes to. *)
Theorem extrair_dados_api_calls (w : World) (url output_path : string) :
  calls (extrair_dados_api w url output_path).1 = [HttpGet url 30]
  ∨ ∃ r dados,
      requests_get w url 30 = inr r
      ∧ ¬ 400 ≤ status_code r < 600
      ∧ json r = inr dados
      ∧ calls (extrair_dados_api w url output_path).1
        = [HttpGet url 30; JsonDump output_path dados].
Proof.
  destruct (extrair_cases w url output_path)
    as [(e & Hg & E) | [(r & msg & Hg & Hs & E) | [(r & e & Hg & Hs & Hj & E)
       | [(r & dados & e & Hg & Hs & Hj & Hd & E) | (r & dados & Hg & Hs & Hj & Hd & E)]]]];
    rewrite E; cbn [fst].
  - left. by rewrite calls_app, calls_handler.
  - by left.
  - left. by rewrite calls_app, calls_handler.
  - right. exists r, dados. do 3 (split; [done|]).
    by rewrite calls_app, calls_handler.
  - right. by exists r, dados.
Qed.

Lemma extrair_success w url output_path r dados :
  requests_get w url 30 = inr r →
  ¬ 400 ≤ status_code r < 600 →
  json r = inr dados →
  json_dump w output_path dados = None →
  extrair_dados_api w url output_path
  = ([ Logged L_INFO (DInicioExtracao url); HttpGet url 30;
       JsonDump output_path dados;
       Logged L_INFO (DBrutosSalvos output_path) ], Returned ()).
Proof.
  intros Hg Hs Hj Hd.
  destruct (extrair_cases w url output_path)
    as [(e & Hg' & E) | [(r' & msg & Hg' & Hs' & E) | [(r' & e & Hg' & Hs' & Hj' & E)
       | [(r' & d' & e & Hg' & Hs' & Hj' & Hd' & E) | (r' & d' & Hg' & Hs' & Hj' & Hd' & E)]]]];
    rewrite Hg in Hg'; try discriminate; injection Hg' as <-; try done;
    rewrite Hj in Hj'; try discriminate; injection Hj' as <-; congruence.
Qed.

Lemma calls_of_Run {A} (m : Run A) : calls (of_Run m).1 = [].
Proof. apply transform_events_calls, of_Run_kinds. Qed.

Lemma criticals_of_Run {A} (m : Run A) : logged_at L_CRITICAL (of_Run m).1 = [].
Proof. apply transform_events_calls, of_Run_kinds. Qed.

Lemma criticals_extrair w url output_path :
  logged_at L_CRITICAL (extrair_dados_api w url output_path).1 = [].
Proof. apply extraction_events_calls, extrair_events_kinds. Qed.

Lemma calls_cons_logged lvl m evs : calls (Logged lvl m :: evs) = calls evs.
Proof. reflexivity. Qed.


(** X14. The process ends with status 0 exactly when the four stages
    succeed: the extraction returns, the session is created, the transform
    returns a table and the Parquet writer accepts it.  Otherwise it ends
    with status 1, and [main] never lets an exception through. *)
Theorem main_exit_status (w : World) :
  (exit_status (main w).2 = 0
   ↔ (extrair_dados_api w (api_url CONFIG) (raw_data_path CONFIG)).2 = Returned ()
     ∧ ∃ spark table,
         getOrCreate w = inr spark
         ∧ outcome (transformar_dados_paises spark (raw_data_path CONFIG)) = inr table
         ∧ write_parquet w table (processed_data_path CONFIG) = None)
  ∧ (exit_status (main w).2 = 0 ∨ exit_status (main w).2 = 1)
  ∧ (∀ e, (main w).2 ≠ Raised e).
Proof.
  destruct (main_cases w)
    as [(e & He & E) | (He & [(e & Hs & E) | (spark & Hs &
         [(exc & Ht & E) | (table & Ht & [(e & Hw & E) | (Hw & E)])])])];
    rewrite E; cbn [snd exit_status]; (split; [|split; [by auto | done]]).
  - split; [done|]. intros [H _]. congruence.
  - split; [done|]. intros (_ & spark & table & H & _). congruence.
  - split; [done|]. intros (_ & spark' & table & H & Ht' & _).
    assert (spark' = spark) as -> by congruence. congruence.
  - split; [done|]. intros (_ & spark' & table' & H & Ht' & Hw').
    assert (spark' = spark) as -> by congruence.
    assert (table' = table) as -> by congruence. congruence.
  - split; [|done]. intros _. split; [done|]. by exists spark, table.
Qed.

Lemma main_exit_status_witness : exit_status (main world_ok).2 = 0.
Proof.
  apply (proj1 (main_exit_status world_ok)). split.
  - vm_compute. reflexivity.
  - exists (session_of df_testland), [testland_row].
    split; [reflexivity|]. split; [vm_compute|]; reflexivity.
Defined.

(** X15. When every stage succeeds, the calls that [main] makes to the
    outside are, in this order: the request, the dump of the raw file, the
    creation of the session, the two displays, the Parquet write of the
    table that the transform returned, at the processed path, and the stop
    of the session.  No record at the level CRITICAL is logged. *)
Theorem main_success_calls (w : World) (r : Response) (dados : string)
    (spark : SparkSession) (table : list FlatRow) :
  requests_get w (api_url CONFIG) 30 = inr r →
  ¬ 400 ≤ status_code r < 600 →
  json r = inr dados →
  json_dump w (raw_data_path CONFIG) dados = None →
  getOrCreate w = inr spark →
  outcome (transformar_dados_paises spark (raw_data_path CONFIG)) = inr table →
  write_parquet w table (processed_data_path CONFIG) = None →
  calls (main w).1
  = [ HttpGet (api_url CONFIG) 30;
      JsonDump (raw_data_path CONFIG) dados;
      BuildSession; PrintSchema; Show 10;
      WriteParquet (processed_data_path CONFIG) table;
      SparkStop ]
  ∧ (main w).2 = Returned ()
  ∧ logged_at L_CRITICAL (main w).1 = [].
Proof.
  intros Hg Hst Hj Hd Hs Ht Hw.
  pose proof (extrair_success w _ _ r dados Hg Hst Hj Hd) as HE.
  destruct (main_cases w)
    as [(e & He & E) | (He & [(e & Hs' & E) | (spark' & Hs' &
         [(exc & Ht' & E) | (table' & Ht' & [(e & Hw' & E) | (Hw' & E)])])])];
    try (rewrite HE in He; discriminate); try congruence;
    assert (spark' = spark) as -> by congruence; try congruence;
    assert (table' = table) as -> by congruence; try congruence.
  rewrite E, HE. cbn [fst snd]. split; [|split; [done|]].
  - rewrite calls_cons_logged, !calls_app, calls_of_Run. reflexivity.
  - change (logged_at L_CRITICAL (?x :: ?l)) with (logged_at L_CRITICAL ([x] ++ l)).
    rewrite !logged_at_app, criticals_of_Run. reflexivity.
Qed.

Lemma main_success_calls_witness :
  calls (main world_ok).1
  = [ HttpGet (api_url CONFIG) 30;
      JsonDump (raw_data_path CONFIG) "[]";
      BuildSession; PrintSchema; Show 10;
      WriteParquet (processed_data_path CONFIG) [testland_row];
      SparkStop ].
Proof.
  refine (proj1 (main_success_calls world_ok response_ok "[]"
                   (session_of df_testland) [testland_row]
                   eq_refl _ eq_refl eq_refl eq_refl _ eq_refl)).
  - cbn. lia.
  - vm_compute. reflexivity.
Defined.

(** X16. The calls that [main] makes after those of the extraction.  The
    session is created only when the extraction returned; it is stopped
    exactly when it was created, whatever happens next, and the stop is the
    last call; the displays and the Parquet write are made only when the
    transform returned, and the write is given the table it returned, at
    the processed path. *)
Theorem main_calls (w : World) :
  calls (main w).1
  = calls (extrair_dados_api w (api_url CONFIG) (raw_data_path CONFIG)).1
    ++ match (extrair_dados_api w (api_url CONFIG) (raw_data_path CONFIG)).2 with
       | Returned _ =>
           BuildSession ::
           match getOrCreate w with
           | inl _ => []
           | inr spark =>
               match outcome (transformar_dados_paises spark (raw_data_path CONFIG)) with
               | inl _ => [SparkStop]
               | inr table =>
                   [ PrintSchema; Show 10;
                     WriteParquet (processed_data_path CONFIG) table; SparkStop ]
               end
           end
       | _ => []
       end.
Proof.
  destruct (main_cases w)
    as [(e & He & E) | (He & [(e & Hs & E) | (spark & Hs &
         [(exc & Ht & E) | (table & Ht & [(e & Hw & E) | (Hw & E)])])])];
    rewrite E, He, ?Hs, ?Ht; cbn [fst];
    rewrite calls_cons_logged, !calls_app, ?calls_of_Run; reflexivity.
Qed.

(** X17. The records at the level CRITICAL that a run of [main] logs: none
    when every stage succeeds, and exactly one otherwise, with the text of
    the exception.  When the session cannot be created the record is the one
    of [inicializar_spark], which exits the process: the record of [main]
    about the failure of the pipeline is not logged then. *)
Theorem main_critical_records (w : World) :
  logged_at L_CRITICAL (main w).1
  = match (extrair_dados_api w (api_url CONFIG) (raw_data_path CONFIG)).2 with
    | Raised e => [DPipelineFalha (failure_str e)]
    | Exited _ => []
    | Returned _ =>
        match getOrCreate w with
        | inl e => [DSparkFalha (failure_str e)]
        | inr spark =>
            match outcome (transformar_dados_paises spark (raw_data_path CONFIG)) with
            | inl exc => [DPipelineFalha (exception_str exc)]
            | inr table =>
                match write_parquet w table (processed_data_path CONFIG) with
                | Some e => [DPipelineFalha (failure_str e)]
                | None => []
                end
            end
        end
    end.
Proof.
  destruct (main_cases w)
    as [(e & He & E) | (He & [(e & Hs & E) | (spark & Hs &
         [(exc & Ht & E) | (table & Ht & [(e & Hw & E) | (Hw & E)])])])];
    rewrite E, He, ?Hs, ?Ht, ?Hw; cbn [fst];
    change (logged_at L_CRITICAL (?x :: ?l)) with (logged_at L_CRITICAL ([x] ++ l));
    rewrite !logged_at_app, criticals_extrair, ?criticals_of_Run; reflexivity.
Qed.

Example main_no_spark :
  main world_no_spark
  = ([ Logged L_INFO DInicioPipeline;
       Logged L_INFO (DInicioExtracao "https://restcountries.com/v3.1/all");
       HttpGet "https://restcountries.com/v3.1/all" 30;
       JsonDump "dados_brutos_paises.json" "[]";
       Logged L_INFO (DBrutosSalvos "dados_brutos_paises.json");
       BuildSession;
       Logged L_CRITICAL (DSparkFalha "Java gateway process exited") ],
     Exited 1).
Proof. vm_compute. reflexivity. Qed.
